(** * The Todo view of [src/App.tsx]: state, handlers and their effects

    The component [App] keeps four pieces of React state and eight handlers
    that talk to a backend through [fetch].  The handlers are embedded here
    as tasks over an explicit world: the React state, the log of the requests
    sent and the console.  A task ends fulfilled or rejected, as the promise of
    an [async] function does.

    Reading conventions.
    - Values carry the types the source ascribes to them: [Todo] is the
      interface of lines 3-7, [id] an integer.  The one value examined at run
      time is the body of [GET /api/todos], which [Array.isArray] inspects.
    - A string is a sequence of code units below 256; [trim] removes the
      ECMAScript white space and line terminators of that range.
    - A handler is one task: it runs to completion against one backend.
      Where a statement needs it, it says that a callback has settled before
      the next event.  Calls that overlap are modelled for Add, which is
      split at its [await] into [addTodoIssue] and [addTodoSettle]. *)

From Stdlib Require Import ZArith String Ascii.
From stdpp Require Import base option list strings.

Open Scope string_scope.
Open Scope list_scope.
Open Scope Z_scope.

(** ** Data model *)

(** [interface Todo] (App.tsx, lines 3-7). *)
Record Todo : Type := mkTodo {
  id : Z;
  title : string;
  completed : bool
}.

#[global] Instance Todo_eq_dec : EqDecision Todo.
Proof. solve_decision. Defined.

(** The four [useState] cells (lines 10-13). *)
Record State : Type := mkState {
  todos : list Todo;
  newTodo : string;
  editingId : option Z;
  editTitle : string
}.

(** The initial values passed to [useState]. *)
Definition initialState : State :=
  {| todos := []; newTodo := ""; editingId := None; editTitle := "" |}.

(** ** JavaScript primitives used by the handlers *)

(** [!s] is false exactly for a non-empty string. *)
Definition truthy_string (s : string) : bool :=
  match s with
  | EmptyString => false
  | String _ _ => true
  end.

(** Truthiness of a [number | null]: [null] and [0] are falsy. *)
Definition truthy_id (o : option Z) : bool :=
  match o with
  | None => false
  | Some n => negb (n =? 0)
  end.

(** White space and line terminators among the code units below 256:
    TAB, LF, VT, FF, CR, SP and NBSP. *)
Definition is_white (c : ascii) : bool :=
  let n := N_of_ascii c in
  ((9 <=? n) && (n <=? 13) || (n =? 32) || (n =? 160))%N.

Fixpoint trimStart (s : string) : string :=
  match s with
  | EmptyString => EmptyString
  | String c s' => if is_white c then trimStart s' else s
  end.

Fixpoint trimEnd (s : string) : string :=
  match s with
  | EmptyString => EmptyString
  | String c s' =>
      match trimEnd s' with
      | EmptyString => if is_white c then EmptyString else String c EmptyString
      | r => String c r
      end
  end.

(** [String.prototype.trim]. *)
Definition trim (s : string) : string := trimEnd (trimStart s).

(** A text made of white space only (the empty text included). *)
Fixpoint all_white (s : string) : bool :=
  match s with
  | EmptyString => true
  | String c s' => is_white c && all_white s'
  end.

(** ** The backend seen through [fetch] *)

(** The five requests the component builds (lines 19, 30, 41, 51, 58). *)
Inductive Request : Type :=
| GetTodos
| PostTodo (title : string)
| PutTodo (id : Z) (title : string)
| DeleteTodo (id : Z)
| PatchToggle (id : Z).

(** A parsed body of [GET /api/todos]; only [JArray] passes
    [Array.isArray]. *)
Inductive JsonValue : Type :=
| JNull
| JBool (b : bool)
| JNumber (n : Z)
| JString (s : string)
| JObject
| JArray (items : list Todo).

(** [Array.isArray(data) ? data : []] (line 21). *)
Definition arrayOrEmpty (data : JsonValue) : list Todo :=
  match data with
  | JArray items => items
  | _ => []
  end.

(** The type the source ascribes to [await res.json()] for each request;
    [deleteTodo] never reads the body. *)
Definition payload (r : Request) : Type :=
  match r with
  | GetTodos => JsonValue
  | PostTodo _ => Todo
  | PutTodo _ _ => Todo
  | DeleteTodo _ => unit
  | PatchToggle _ => Todo
  end.

(** What [res.json()] does with a response body. *)
Inductive Body (A : Type) : Type :=
| NotJson
| Parsed (data : A).
Arguments NotJson {A}.
Arguments Parsed {A} data.

(** A backend answers each request with a response, or not at all
    ([None]: [fetch] rejects). *)
Definition Backend : Type := forall r : Request, option (Body (payload r)).

(** ** Tasks *)

Inductive Fault : Type :=
| FetchFailed
| JsonFailed.

Inductive LogEntry : Type :=
| FailedToFetchTodos (e : Fault).

Record World : Type := mkWorld {
  ui : State;
  sent : list Request;
  console : list LogEntry
}.

Inductive Settled (A : Type) : Type :=
| Fulfilled (a : A)
| Rejected (e : Fault).
Arguments Fulfilled {A} a.
Arguments Rejected {A} e.

Definition Task (A : Type) : Type := World -> Settled A * World.

Definition ret {A} (a : A) : Task A := fun w => (Fulfilled a, w).

Definition throw {A} (e : Fault) : Task A := fun w => (Rejected e, w).

Definition bind {A B} (m : Task A) (k : A -> Task B) : Task B :=
  fun w =>
    match m w with
    | (Fulfilled a, w') => k a w'
    | (Rejected e, w') => (Rejected e, w')
    end.

(** [try { m } catch (error) { h error }]. *)
Definition try_catch {A} (m : Task A) (h : Fault -> Task A) : Task A :=
  fun w =>
    match m w with
    | (Fulfilled a, w') => (Fulfilled a, w')
    | (Rejected e, w') => h e w'
    end.

Declare Scope task_scope.
Delimit Scope task_scope with task.
Notation "x <- m ;; k" := (bind m (fun x => k))
  (at level 100, m at next level, right associativity) : task_scope.
Notation "m ;; k" := (bind m (fun _ => k))
  (at level 100, right associativity) : task_scope.
Open Scope task_scope.

Definition get : Task State := fun w => (Fulfilled (ui w), w).

Definition modify (f : State -> State) : Task unit :=
  fun w => (Fulfilled tt, {| ui := f (ui w); sent := sent w; console := console w |}).

(** The state setters.  [setTodos] takes an updater, as in
    [setTodos(prev => ...)]; [setTodos(v)] is [setTodos (fun _ => v)]. *)
Definition setTodos (f : list Todo -> list Todo) : Task unit :=
  modify (fun s => {| todos := f (todos s); newTodo := newTodo s;
                      editingId := editingId s; editTitle := editTitle s |}).

Definition setNewTodo (v : string) : Task unit :=
  modify (fun s => {| todos := todos s; newTodo := v;
                      editingId := editingId s; editTitle := editTitle s |}).

Definition setEditingId (v : option Z) : Task unit :=
  modify (fun s => {| todos := todos s; newTodo := newTodo s;
                      editingId := v; editTitle := editTitle s |}).

Definition setEditTitle (v : string) : Task unit :=
  modify (fun s => {| todos := todos s; newTodo := newTodo s;
                      editingId := editingId s; editTitle := v |}).

Definition console_error (e : Fault) : Task unit :=
  fun w => (Fulfilled tt,
            {| ui := ui w; sent := sent w;
               console := console w ++ [FailedToFetchTodos e] |}).

(** The world once request [r] has gone out. *)
Definition logged (r : Request) (w : World) : World :=
  {| ui := ui w; sent := sent w ++ [r]; console := console w |}.

(** [await fetch(...)]: the request goes out; the promise rejects when the
    backend gives no response. *)
Definition fetch (api : Backend) (r : Request) : Task (Body (payload r)) :=
  fun w =>
    match api r with
    | None => (Rejected FetchFailed, logged r w)
    | Some res => (Fulfilled res, logged r w)
    end.

(** [await res.json()]. *)
Definition json {A} (res : Body A) : Task A :=
  match res with
  | NotJson => throw JsonFailed
  | Parsed data => ret data
  end.

(** ** The list patches handed to [setTodos] *)

(** [prev => [...prev, data]] (line 36). *)
Definition appendTodo (data : Todo) (prev : list Todo) : list Todo :=
  prev ++ [data].

(** [prev => prev.map(t => (t.id === data.id ? data : t))] (lines 47, 62). *)
Definition replaceTodo (data : Todo) (prev : list Todo) : list Todo :=
  (fun t => if id t =? id data then data else t) <$> prev.

(** [prev => prev.filter(t => t.id !== id)] (line 54). *)
Definition removeTodo (i : Z) (prev : list Todo) : list Todo :=
  List.filter (fun t => negb (id t =? i)) prev.

(** ** The handlers *)

Section Handlers.

Variable api : Backend.

(** Lines 17-26. *)
Definition fetchTodos : Task unit :=
  try_catch
    (res <- fetch api GetTodos ;;
     data <- json res ;;
     setTodos (fun _ => arrayOrEmpty data))
    (fun error =>
       console_error error ;;
       setTodos (fun _ => [])).

(** Lines 28-38. *)
Definition addTodo : Task unit :=
  s <- get ;;
  if negb (truthy_string (newTodo s)) then ret tt
  else
    res <- fetch api (PostTodo (newTodo s)) ;;
    data <- json res ;;
    setTodos (appendTodo data) ;;
    setNewTodo "".

(** Lines 40-48. *)
Definition updateTodo (i : Z) (t : string) : Task unit :=
  res <- fetch api (PutTodo i t) ;;
  data <- json res ;;
  setTodos (replaceTodo data).

(** Lines 50-55. *)
Definition deleteTodo (i : Z) : Task unit :=
  fetch api (DeleteTodo i) ;;
  setTodos (removeTodo i).

(** Lines 57-63. *)
Definition toggleTodo (i : Z) : Task unit :=
  res <- fetch api (PatchToggle i) ;;
  data <- json res ;;
  setTodos (replaceTodo data).

(** Lines 65-68. *)
Definition startEdit (todo : Todo) : Task unit :=
  setEditingId (Some (id todo)) ;;
  setEditTitle (title todo).

(** Lines 70-76. *)
Definition saveEdit : Task unit :=
  s <- get ;;
  match editingId s with
  | Some i =>
      if truthy_id (editingId s) && truthy_string (trim (editTitle s)) then
        updateTodo i (trim (editTitle s)) ;;
        setEditingId None ;;
        setEditTitle ""
      else ret tt
  | None => ret tt
  end.

(** Lines 78-81. *)
Definition cancelEdit : Task unit :=
  setEditingId None ;;
  setEditTitle "".

End Handlers.

(** The world a task leaves behind, and how it settled. *)
Definition after {A} (m : Task A) (w : World) : World := snd (m w).
Definition settled {A} (m : Task A) (w : World) : Settled A := fst (m w).

(** ** Sample backends and worlds *)

(** Answers every item request with [d] and the list request with [[d]]. *)
Definition answering (d : Todo) : Backend :=
  fun r =>
    match r as r0 return option (Body (payload r0)) with
    | GetTodos => Some (Parsed (JArray [d]))
    | PostTodo _ => Some (Parsed d)
    | PutTodo _ _ => Some (Parsed d)
    | DeleteTodo _ => Some (Parsed tt)
    | PatchToggle _ => Some (Parsed d)
    end.

(** Unreachable: every [fetch] rejects. *)
Definition offline : Backend := fun _ => None.

(** Reachable, but no body is JSON. *)
Definition garbled : Backend := fun _ => Some NotJson.

(** Answers [GET /api/todos] with a JSON object. *)
Definition objecting : Backend :=
  fun r =>
    match r as r0 return option (Body (payload r0)) with
    | GetTodos => Some (Parsed JObject)
    | _ => None
    end.

Definition milk : Todo := mkTodo 1 "Buy milk" false.
Definition milk_done : Todo := mkTodo 1 "Buy milk" true.
Definition oat_milk_done : Todo := mkTodo 1 "Buy oat milk" true.
Definition bread : Todo := mkTodo 2 "Bake bread" false.
Definition bread_done : Todo := mkTodo 2 "Bake bread" true.
Definition eggs : Todo := mkTodo 3 "Boil eggs" false.

Definition viewing (l : list Todo) : World :=
  {| ui := {| todos := l; newTodo := ""; editingId := None; editTitle := "" |};
     sent := []; console := [] |}.

Definition drafting (l : list Todo) (text : string) : World :=
  {| ui := {| todos := l; newTodo := text; editingId := None; editTitle := "" |};
     sent := []; console := [] |}.

Definition editing (l : list Todo) (i : Z) (text : string) : World :=
  {| ui := {| todos := l; newTodo := ""; editingId := Some i; editTitle := text |};
     sent := []; console := [] |}.

(** ** Patches and operations *)

(** A world whose list went through the updater [f]. *)
Definition patched (f : list Todo -> list Todo) (w : World) : World :=
  {| ui := {| todos := f (todos (ui w)); newTodo := newTodo (ui w);
              editingId := editingId (ui w); editTitle := editTitle (ui w) |};
     sent := sent w; console := console w |}.

(** The ways a handler can leave the list: one of the three patches, or
    untouched. *)
Inductive Patch : Type :=
| Append (data : Todo)
| Replace (data : Todo)
| Remove (i : Z)
| Keep.

Definition applyPatch (p : Patch) : list Todo -> list Todo :=
  match p with
  | Append d => appendTodo d
  | Replace d => replaceTodo d
  | Remove i => removeTodo i
  | Keep => fun prev => prev
  end.

(** The four operations that patch the list. *)
Inductive Op : Type :=
| Add
| Rename (i : Z) (t : string)
| Delete (i : Z)
| Toggle (i : Z).

Definition perform (api : Backend) (op : Op) : Task unit :=
  match op with
  | Add => addTodo api
  | Rename i t => updateTodo api i t
  | Delete i => deleteTodo api i
  | Toggle i => toggleTodo api i
  end.

(** ** Specification predicates *)

(** The items of [before] that carry the id of [d] are replaced by [d], in
    place; the others stay as they are. *)
Definition replaced_by (d : Todo) (before after : list Todo) : Prop :=
  length after = length before /\
  forall (k : nat) (u : Todo), before !! k = Some u ->
    (id u = id d -> after !! k = Some d) /\
    (id u <> id d -> after !! k = Some u).

(** Every item whose id is not [i] stays as it is, in place. *)
Definition only_id_changes (i : Z) (before after : list Todo) : Prop :=
  forall (k : nat) (u : Todo), before !! k = Some u -> id u <> i ->
    after !! k = Some u.

(** The [onChange] of the draft input (line 96) followed by a click on
    "Add", against the backend that serves this call, run until the call
    has settled. *)
Definition submit (call : Backend * string) : Task unit :=
  setNewTodo (snd call) ;;
  addTodo (fst call).

(** Adds one after the other: each call has settled (its item appended, the
    draft cleared) before the next title is typed.  The component does not
    enforce this; overlapping calls are [runAdds] below. *)
Fixpoint submitAll (calls : list (Backend * string)) : Task unit :=
  match calls with
  | [] => ret tt
  | call :: rest => submit call ;; submitAll rest
  end.

(** The call is a successful Add of a non-empty title that returns [d]. *)
Definition creates (call : Backend * string) (d : Todo) : Prop :=
  snd call <> "" /\ fst call (PostTodo (snd call)) = Some (Parsed d).

(** [addTodo] up to its [await fetch] (lines 28-34): the guard, then the
    request goes out and the handler is suspended.  Gives the title posted,
    if any. *)
Definition addTodoIssue : Task (option string) :=
  s <- get ;;
  if negb (truthy_string (newTodo s)) then ret None
  else fun w => (Fulfilled (Some (newTodo s)), logged (PostTodo (newTodo s)) w).

(** [addTodo] from the moment its response is there (lines 30-37): [fetch]
    rejects or resolves, the body is parsed, the item is appended to the list
    as it is then and the draft is cleared.  Nothing is read from the state
    in between, so this is one step. *)
Definition addTodoSettle (res : option (Body Todo)) : Task unit :=
  match res with
  | None => throw FetchFailed
  | Some body =>
      data <- json body ;;
      setTodos (appendTodo data) ;;
      setNewTodo ""
  end.

(** A run of Adds that may overlap.  [Issue call]: the user types the title
    of the call and clicks "Add".  [Settle call]: the response to the call
    arrives.  Nothing in the component orders the two kinds of steps of
    different calls. *)
Inductive AddStep : Type :=
| Issue (call : Backend * string)
| Settle (call : Backend * string).

Definition addStep (st : AddStep) : Task unit :=
  match st with
  | Issue call => setNewTodo (snd call) ;; addTodoIssue ;; ret tt
  | Settle call => addTodoSettle (fst call (PostTodo (snd call)))
  end.

(** The steps run one by one; a rejected step does not stop the others. *)
Fixpoint runAdds (steps : list AddStep) (w : World) : World :=
  match steps with
  | [] => w
  | st :: rest => runAdds rest (after (addStep st) w)
  end.

(** The calls issued, in the order of the clicks. *)
Fixpoint issuedCalls (steps : list AddStep) : list (Backend * string) :=
  match steps with
  | [] => []
  | Issue call :: rest => call :: issuedCalls rest
  | Settle _ :: rest => issuedCalls rest
  end.

(** The calls settled, in the order their responses arrive. *)
Fixpoint settledCalls (steps : list AddStep) : list (Backend * string) :=
  match steps with
  | [] => []
  | Issue _ :: rest => settledCalls rest
  | Settle call :: rest => call :: settledCalls rest
  end.

(** The run in which each call settles before the next is issued. *)
Fixpoint sequential (calls : list (Backend * string)) : list AddStep :=
  match calls with
  | [] => []
  | call :: rest => Issue call :: Settle call :: sequential rest
  end.

(** ** The rendered view (lines 87-141) *)

(** [editingId === todo.id]: [null] is strictly equal to no number. *)
Definition strict_eq_id (o : option Z) (n : Z) : bool :=
  match o with
  | None => false
  | Some m => m =? n
  end.

(** What the user can do to the view.  Each event stands for the callback
    the JSX attaches: [onChange] of the draft input (line 96), [onClick] of
    "Add" (101), of the title span (128), of "Edit" (132), of "Delete" (133),
    [onChange] of the edit input (116), [onClick] of "Save" and "Cancel"
    (119, 120). *)
Inductive Event : Type :=
| ChangeDraft (value : string)
| ClickAdd
| ClickToggle (i : Z)
| ClickEdit (todo : Todo)
| ClickDelete (i : Z)
| ChangeEdit (value : string)
| ClickSave
| ClickCancel.

(** One [<li>] (lines 110-136): the inline form with its input value, or the
    read-only row with the text of its span, its [line-through] class and the
    arguments its three callbacks close over. *)
Inductive Row : Type :=
| EditForm (key : Z) (value : string)
| ReadRow (key : Z) (text : string) (lineThrough : bool)
          (onToggle : Z) (onEdit : Todo) (onDelete : Z).

Record View : Type := mkView {
  draftValue : string;
  rows : list Row
}.

Definition renderRow (s : State) (todo : Todo) : Row :=
  if strict_eq_id (editingId s) (id todo)
  then EditForm (id todo) (editTitle s)
  else ReadRow (id todo) (title todo) (completed todo) (id todo) todo (id todo).

(** The [return] of [App]. *)
Definition render (s : State) : View :=
  {| draftValue := newTodo s; rows := renderRow s <$> todos s |}.

Definition rowKey (r : Row) : Z :=
  match r with
  | EditForm key _ => key
  | ReadRow key _ _ _ _ _ => key
  end.

Definition isEditForm (r : Row) : bool :=
  match r with
  | EditForm _ _ => true
  | ReadRow _ _ _ _ _ _ => false
  end.

(** The row carries the callback of event [e]. *)
Definition rowOffers (r : Row) (e : Event) : bool :=
  match r, e with
  | EditForm _ _, ChangeEdit _ => true
  | EditForm _ _, ClickSave => true
  | EditForm _ _, ClickCancel => true
  | ReadRow _ _ _ onToggle _ _, ClickToggle i => i =? onToggle
  | ReadRow _ _ _ _ onEdit _, ClickEdit todo => bool_decide (todo = onEdit)
  | ReadRow _ _ _ _ _ onDelete, ClickDelete i => i =? onDelete
  | _, _ => false
  end.

(** The view carries the callback of event [e]; the draft input and the
    "Add" button are always there. *)
Definition offers (v : View) (e : Event) : bool :=
  match e with
  | ChangeDraft _ => true
  | ClickAdd => true
  | _ => existsb (fun r => rowOffers r e) (rows v)
  end.

(** What the row of one item offers. *)
Definition row_allows (s : State) (todo : Todo) (e : Event) : Prop :=
  match e with
  | ClickToggle i => id todo = i /\ editingId s <> Some i
  | ClickDelete i => id todo = i /\ editingId s <> Some i
  | ClickEdit t => t = todo /\ editingId s <> Some (id t)
  | ChangeEdit _ => editingId s = Some (id todo)
  | ClickSave => editingId s = Some (id todo)
  | ClickCancel => editingId s = Some (id todo)
  | ChangeDraft _ => False
  | ClickAdd => False
  end.

(** What the view of a state offers: the draft input and "Add" always;
    Toggle, Edit and Delete for the items of the list that are not under
    edit; the edit input, "Save" and "Cancel" when an item of the list is
    under edit. *)
Definition allows (s : State) (e : Event) : Prop :=
  match e with
  | ChangeDraft _ => True
  | ClickAdd => True
  | _ => exists todo, todo ∈ todos s /\ row_allows s todo e
  end.


(** The callback behind each event. *)
Definition dispatch (api : Backend) (e : Event) : Task unit :=
  match e with
  | ChangeDraft value => setNewTodo value
  | ClickAdd => addTodo api
  | ClickToggle i => toggleTodo api i
  | ClickEdit todo => startEdit todo
  | ClickDelete i => deleteTodo api i
  | ChangeEdit value => setEditTitle value
  | ClickSave => saveEdit api
  | ClickCancel => cancelEdit
  end.



(** No two items of the list share an id. *)
Definition unique_ids (l : list Todo) : Prop := NoDup (id <$> l).

(** Some item of the list carries the id. *)
Definition has_id (i : Z) (l : list Todo) : Prop :=
  exists t, t ∈ l /\ id t = i.

(** The text is [pre ++ core ++ post] with white space around the core. *)
Definition trimmed_from (s core : string) : Prop :=
  exists pre post : string,
    s = String.append pre (String.append core post) /\
    all_white pre = true /\ all_white post = true.

(** The text neither starts nor ends with white space. *)
Fixpoint ends_black (s : string) : bool :=
  match s with
  | EmptyString => true
  | String c EmptyString => negb (is_white c)
  | String _ s' => ends_black s'
  end.

Definition starts_black (s : string) : bool :=
  match s with
  | EmptyString => true
  | String c _ => negb (is_white c)
  end.

(** ** Facts about the primitives *)

Lemma trimStart_all_white (s : string) :
  all_white s = true -> trimStart s = "".
Proof.
  induction s as [|c s IH]; simpl; [reflexivity|].
  destruct (is_white c); simpl; [exact IH | discriminate].
Qed.

Lemma trimEnd_head_black (c : ascii) (s : string) :
  is_white c = false -> truthy_string (trimEnd (String c s)) = true.
Proof.
  intros Hc. simpl. destruct (trimEnd s); [rewrite Hc|]; reflexivity.
Qed.

Lemma trimStart_black (s : string) :
  all_white s = false ->
  exists c s', trimStart s = String c s' /\ is_white c = false.
Proof.
  induction s as [|c s IH]; simpl; [discriminate|].
  destruct (is_white c) eqn:Hc; simpl.
  - exact IH.
  - intros _. exists c, s. split; [reflexivity | exact Hc].
Qed.

(** A text trims to the empty string exactly when it is all white space. *)
Lemma trim_truthy (s : string) :
  truthy_string (trim s) = negb (all_white s).
Proof.
  unfold trim. destruct (all_white s) eqn:Hs; simpl.
  - rewrite trimStart_all_white by exact Hs. reflexivity.
  - destruct (trimStart_black s Hs) as (c & s' & -> & Hc).
    apply trimEnd_head_black, Hc.
Qed.

Lemma truthy_string_nonempty (s : string) :
  truthy_string s = true <-> s <> "".
Proof. destruct s; simpl; split; congruence. Qed.

(** ** Facts about the list patches *)

Lemma replaceTodo_length (d : Todo) (l : list Todo) :
  length (replaceTodo d l) = length l.
Proof. unfold replaceTodo. apply length_fmap. Qed.

Lemma replaceTodo_lookup (d : Todo) (l : list Todo) (k : nat) (u : Todo) :
  l !! k = Some u ->
  (id u = id d -> replaceTodo d l !! k = Some d) /\
  (id u <> id d -> replaceTodo d l !! k = Some u).
Proof.
  intros Hk. unfold replaceTodo. rewrite list_lookup_fmap, Hk. simpl.
  split; intros H.
  - apply Z.eqb_eq in H. rewrite H. reflexivity.
  - apply Z.eqb_neq in H. rewrite H. reflexivity.
Qed.

Lemma replaceTodo_absent (d : Todo) (l : list Todo) :
  (forall u, u ∈ l -> id u <> id d) -> replaceTodo d l = l.
Proof.
  intros H. apply list_eq. intros k.
  destruct (l !! k) as [u|] eqn:Hk.
  - apply (replaceTodo_lookup d) in Hk as Hr. apply Hr, H.
    apply list_elem_of_lookup. eauto.
  - unfold replaceTodo. rewrite list_lookup_fmap, Hk. reflexivity.
Qed.

Lemma removeTodo_app (i : Z) (l1 l2 : list Todo) :
  removeTodo i (l1 ++ l2) = removeTodo i l1 ++ removeTodo i l2.
Proof. unfold removeTodo. apply List.filter_app. Qed.

Lemma removeTodo_elem (i : Z) (l : list Todo) (t : Todo) :
  t ∈ removeTodo i l <-> t ∈ l /\ id t <> i.
Proof.
  unfold removeTodo. rewrite !list_elem_of_In, List.filter_In.
  rewrite negb_true_iff, Z.eqb_neq. reflexivity.
Qed.

Lemma removeTodo_absent (i : Z) (l : list Todo) :
  (forall u, u ∈ l -> id u <> i) -> removeTodo i l = l.
Proof.
  induction l as [|u l IH]; intros H; [reflexivity|].
  unfold removeTodo in *. simpl.
  assert (Hu : id u <> i) by (apply H; left).
  apply Z.eqb_neq in Hu. rewrite Hu. simpl. f_equal.
  apply IH. intros v Hv. apply H. right. exact Hv.
Qed.

Lemma removeTodo_keep (i : Z) (t : Todo) (l : list Todo) :
  id t <> i -> removeTodo i (t :: l) = t :: removeTodo i l.
Proof.
  intros H. apply Z.eqb_neq in H. unfold removeTodo. simpl.
  rewrite H. reflexivity.
Qed.

Lemma removeTodo_drop (i : Z) (t : Todo) (l : list Todo) :
  id t = i -> removeTodo i (t :: l) = removeTodo i l.
Proof.
  intros H. apply Z.eqb_eq in H. unfold removeTodo. simpl.
  rewrite H. reflexivity.
Qed.

(** Where a surviving item sits after [removeTodo]: behind the survivors
    among its predecessors. *)
Lemma removeTodo_lookup (i : Z) (l : list Todo) (k : nat) (t : Todo) :
  l !! k = Some t -> id t <> i ->
  removeTodo i l !! length (removeTodo i (take k l)) = Some t.
Proof.
  intros Hk Ht.
  assert (Hl : removeTodo i l =
               removeTodo i (take k l) ++ t :: removeTodo i (drop (S k) l)).
  { rewrite <- (removeTodo_keep i t) by exact Ht.
    rewrite <- removeTodo_app. f_equal. symmetry.
    apply take_drop_middle, Hk. }
  rewrite Hl, lookup_app_r by reflexivity.
  rewrite Nat.sub_diag. reflexivity.
Qed.

Lemma removeTodo_take_le (i : Z) (l : list Todo) (j k : nat) :
  (j <= k)%nat ->
  (length (removeTodo i (take j l)) <= length (removeTodo i (take k l)))%nat.
Proof.
  intros Hjk.
  assert (Hl : take k l = take j l ++ drop j (take k l)).
  { rewrite <- (take_drop j (take k l)) at 1. f_equal.
    rewrite take_take. f_equal. lia. }
  rewrite Hl, removeTodo_app, length_app. lia.
Qed.

Lemma removeTodo_take_lt (i : Z) (l : list Todo) (j k : nat) (t : Todo) :
  l !! j = Some t -> id t <> i -> (j < k)%nat ->
  (length (removeTodo i (take j l)) < length (removeTodo i (take k l)))%nat.
Proof.
  intros Hj Ht Hjk.
  apply Nat.lt_le_trans with (length (removeTodo i (take (S j) l))).
  - rewrite (take_S_r l j t Hj), removeTodo_app, length_app.
    rewrite removeTodo_keep by exact Ht. simpl. lia.
  - apply removeTodo_take_le. lia.
Qed.

Lemma replaceTodo_ids (d : Todo) (l : list Todo) :
  id <$> replaceTodo d l = id <$> l.
Proof.
  unfold replaceTodo. rewrite <- list_fmap_compose.
  apply list_fmap_ext. intros k t _. simpl.
  destruct (id t =? id d) eqn:H; [|reflexivity].
  apply Z.eqb_eq in H. symmetry. exact H.
Qed.

Lemma removeTodo_sublist (i : Z) (l : list Todo) :
  removeTodo i l `sublist_of` l.
Proof.
  unfold removeTodo. induction l as [|u l IH]; simpl; [constructor|].
  destruct (negb (id u =? i)); [apply sublist_skip | apply sublist_cons]; exact IH.
Qed.

Lemma removeTodo_idem (i : Z) (l : list Todo) :
  removeTodo i (removeTodo i l) = removeTodo i l.
Proof.
  apply removeTodo_absent. intros u Hu.
  apply removeTodo_elem in Hu. apply Hu.
Qed.

Lemma removeTodo_comm (i j : Z) (l : list Todo) :
  removeTodo i (removeTodo j l) = removeTodo j (removeTodo i l).
Proof.
  induction l as [|u l IH]; [reflexivity|].
  destruct (decide (id u = j)) as [Hj|Hj]; destruct (decide (id u = i)) as [Hi|Hi].
  - rewrite (removeTodo_drop j u l Hj), (removeTodo_drop i u l Hi). exact IH.
  - rewrite (removeTodo_drop j u l Hj), (removeTodo_keep i u l Hi).
    rewrite (removeTodo_drop j u _ Hj). exact IH.
  - rewrite (removeTodo_keep j u l Hj), (removeTodo_drop i u l Hi).
    rewrite (removeTodo_drop i u _ Hi). exact IH.
  - rewrite (removeTodo_keep j u l Hj), (removeTodo_keep i u l Hi).
    rewrite (removeTodo_keep i u _ Hi), (removeTodo_keep j u _ Hj).
    f_equal. exact IH.
Qed.

Lemma replaceTodo_cons (d u : Todo) (l : list Todo) :
  replaceTodo d (u :: l) = (if id u =? id d then d else u) :: replaceTodo d l.
Proof. reflexivity. Qed.

Lemma removeTodo_replaceTodo (i : Z) (d : Todo) (l : list Todo) :
  removeTodo i (replaceTodo d l) = replaceTodo d (removeTodo i l).
Proof.
  induction l as [|u l IH]; [reflexivity|].
  rewrite replaceTodo_cons.
  assert (Hid : id (if id u =? id d then d else u) = id u).
  { destruct (id u =? id d) eqn:H; [|reflexivity].
    apply Z.eqb_eq in H. symmetry. exact H. }
  destruct (decide (id u = i)) as [Hi|Hi].
  - rewrite removeTodo_drop by (rewrite Hid; exact Hi).
    rewrite (removeTodo_drop i u l Hi). exact IH.
  - rewrite removeTodo_keep by (rewrite Hid; exact Hi).
    rewrite (removeTodo_keep i u l Hi), replaceTodo_cons.
    f_equal. exact IH.
Qed.

Lemma has_id_dec (i : Z) (l : list Todo) :
  has_id i l <-> i ∈ id <$> l.
Proof.
  unfold has_id. rewrite list_elem_of_fmap. split.
  - intros (t & Ht & <-). exists t. split; [reflexivity | exact Ht].
  - intros (t & -> & Ht). exists t. split; [exact Ht | reflexivity].
Qed.

Lemma has_id_replaceTodo (i : Z) (d : Todo) (l : list Todo) :
  has_id i (replaceTodo d l) <-> has_id i l.
Proof. rewrite !has_id_dec, replaceTodo_ids. reflexivity. Qed.

Lemma has_id_app (i : Z) (l : list Todo) (d : Todo) :
  has_id i l -> has_id i (l ++ [d]).
Proof.
  intros (t & Ht & Hid). exists t. split; [|exact Hid].
  apply elem_of_app. left. exact Ht.
Qed.

Lemma has_id_removeTodo (i j : Z) (l : list Todo) :
  has_id i l -> i <> j -> has_id i (removeTodo j l).
Proof.
  intros (t & Ht & Hid) Hne. exists t. split; [|exact Hid].
  apply removeTodo_elem. split; [exact Ht | congruence].
Qed.

(** ** Running the handlers *)

Lemma bind_fulfilled {A B} (m : Task A) (k : A -> Task B) (w w' : World) (a : A) :
  m w = (Fulfilled a, w') -> bind m k w = k a w'.
Proof. intros H. unfold bind. rewrite H. reflexivity. Qed.

Lemma bind_rejected {A B} (m : Task A) (k : A -> Task B) (w w' : World) (e : Fault) :
  m w = (Rejected e, w') -> bind m k w = (Rejected e, w').
Proof. intros H. unfold bind. rewrite H. reflexivity. Qed.

Lemma fetch_answered (api : Backend) (r : Request) (b : Body (payload r)) (w : World) :
  api r = Some b -> fetch api r w = (Fulfilled b, logged r w).
Proof. intros H. unfold fetch. rewrite H. reflexivity. Qed.

Lemma fetch_unanswered (api : Backend) (r : Request) (w : World) :
  api r = None -> fetch api r w = (Rejected FetchFailed, logged r w).
Proof. intros H. unfold fetch. rewrite H. reflexivity. Qed.

Lemma updateTodo_parsed (api : Backend) (i : Z) (t : string) (d : Todo) (w : World) :
  api (PutTodo i t) = Some (Parsed d) ->
  updateTodo api i t w = (Fulfilled tt, patched (replaceTodo d) (logged (PutTodo i t) w)).
Proof.
  intros H. unfold updateTodo, bind.
  rewrite (fetch_answered _ _ _ _ H). reflexivity.
Qed.

Lemma updateTodo_failed (api : Backend) (i : Z) (t : string) (w : World) :
  api (PutTodo i t) = None \/ api (PutTodo i t) = Some NotJson ->
  exists e, updateTodo api i t w = (Rejected e, logged (PutTodo i t) w).
Proof.
  intros [H|H]; unfold updateTodo, bind.
  - rewrite (fetch_unanswered _ _ _ H). eauto.
  - rewrite (fetch_answered _ _ _ _ H). simpl. eauto.
Qed.

Lemma toggleTodo_parsed (api : Backend) (i : Z) (d : Todo) (w : World) :
  api (PatchToggle i) = Some (Parsed d) ->
  toggleTodo api i w = (Fulfilled tt, patched (replaceTodo d) (logged (PatchToggle i) w)).
Proof.
  intros H. unfold toggleTodo, bind.
  rewrite (fetch_answered _ _ _ _ H). reflexivity.
Qed.

Lemma deleteTodo_answered (api : Backend) (i : Z) (b : Body unit) (w : World) :
  api (DeleteTodo i) = Some b ->
  deleteTodo api i w = (Fulfilled tt, patched (removeTodo i) (logged (DeleteTodo i) w)).
Proof.
  intros H. unfold deleteTodo, bind.
  rewrite (fetch_answered _ _ _ _ H). reflexivity.
Qed.

Lemma addTodo_empty (api : Backend) (w : World) :
  newTodo (ui w) = "" -> addTodo api w = (Fulfilled tt, w).
Proof. intros H. unfold addTodo, bind, get. rewrite H. reflexivity. Qed.

Lemma addTodo_parsed (api : Backend) (d : Todo) (w : World) :
  newTodo (ui w) <> "" ->
  api (PostTodo (newTodo (ui w))) = Some (Parsed d) ->
  addTodo api w =
    (Fulfilled tt,
     {| ui := {| todos := todos (ui w) ++ [d]; newTodo := "";
                 editingId := editingId (ui w); editTitle := editTitle (ui w) |};
        sent := sent w ++ [PostTodo (newTodo (ui w))];
        console := console w |}).
Proof.
  intros Hne H. apply truthy_string_nonempty in Hne.
  unfold addTodo, bind, get. rewrite Hne. simpl.
  rewrite (fetch_answered _ _ _ _ H). reflexivity.
Qed.

(** Past its guard, [saveEdit] is the Rename followed by the two setters. *)
Lemma saveEdit_runs (api : Backend) (w : World) (i : Z) :
  editingId (ui w) = Some i -> i <> 0 ->
  all_white (editTitle (ui w)) = false ->
  saveEdit api w =
    (updateTodo api i (trim (editTitle (ui w))) ;;
     setEditingId None ;;
     setEditTitle "") w.
Proof.
  intros Hid Hi Hdraft. apply Z.eqb_neq in Hi.
  unfold saveEdit. unfold bind at 1. unfold get.
  cbv beta iota. rewrite Hid. unfold truthy_id.
  rewrite Hi, trim_truthy, Hdraft. reflexivity.
Qed.

(** Whatever the backend does, a handler that patches the list applies one
    of the three patches to it, or leaves it alone; only Delete removes. *)
Lemma perform_patches (api : Backend) (op : Op) (w : World) :
  exists p,
    todos (ui (after (perform api op) w)) = applyPatch p (todos (ui w)) /\
    (forall i, p = Remove i -> op = Delete i).
Proof.
  unfold after. destruct op as [|i t|i|i]; simpl.
  - unfold addTodo, bind, get.
    destruct (truthy_string (newTodo (ui w))); simpl;
      [|exists Keep; split; [reflexivity | discriminate]].
    unfold fetch. destruct (api (PostTodo (newTodo (ui w)))) as [[|d]|]; simpl;
      [exists Keep | exists (Append d) | exists Keep];
      (split; [reflexivity | discriminate]).
  - unfold updateTodo, bind, fetch.
    destruct (api (PutTodo i t)) as [[|d]|]; simpl;
      [exists Keep | exists (Replace d) | exists Keep];
      (split; [reflexivity | discriminate]).
  - unfold deleteTodo, bind, fetch.
    destruct (api (DeleteTodo i)) as [b|]; simpl;
      [exists (Remove i) | exists Keep];
      (split; [reflexivity | congruence]).
  - unfold toggleTodo, bind, fetch.
    destruct (api (PatchToggle i)) as [[|d]|]; simpl;
      [exists Keep | exists (Replace d) | exists Keep];
      (split; [reflexivity | discriminate]).
Qed.

(** One successful Add of a non-empty title. *)
Lemma submit_creates (call : Backend * string) (d : Todo) (w : World) :
  creates call d ->
  submit call w =
    (Fulfilled tt,
     {| ui := {| todos := todos (ui w) ++ [d]; newTodo := "";
                 editingId := editingId (ui w); editTitle := editTitle (ui w) |};
        sent := sent w ++ [PostTodo (snd call)];
        console := console w |}).
Proof.
  intros [Hne Hd]. unfold submit.
  rewrite (bind_fulfilled _ _ w
             {| ui := {| todos := todos (ui w); newTodo := snd call;
                         editingId := editingId (ui w);
                         editTitle := editTitle (ui w) |};
                sent := sent w; console := console w |} tt eq_refl).
  rewrite (addTodo_parsed (fst call) d); [reflexivity | exact Hne | exact Hd].
Qed.

(** A run of successful Adds, as one step. *)
Lemma submitAll_creates (calls : list (Backend * string)) (items : list Todo) :
  Forall2 creates calls items ->
  forall w : World,
    submitAll calls w =
      (Fulfilled tt,
       {| ui := {| todos := todos (ui w) ++ items;
                   newTodo := match calls with [] => newTodo (ui w) | _ => "" end;
                   editingId := editingId (ui w);
                   editTitle := editTitle (ui w) |};
          sent := sent w ++ (PostTodo ∘ snd <$> calls);
          console := console w |}).
Proof.
  induction 1 as [|call d calls items Hcall Hrest IH]; intros w; simpl.
  - unfold ret. rewrite !app_nil_r. destruct w as [[] ? ?]. reflexivity.
  - rewrite (bind_fulfilled _ _ _ _ _ (submit_creates _ _ w Hcall)).
    rewrite IH. simpl. rewrite <- !app_assoc. simpl.
    destruct calls; reflexivity.
Qed.

(** A run of calls splits at any point into two runs, one after the other. *)
Lemma submitAll_app (l1 l2 : list (Backend * string)) (w : World) :
  submitAll (l1 ++ l2) w = (submitAll l1 ;; submitAll l2) w.
Proof.
  revert w. induction l1 as [|c l1 IH]; intros w; simpl; [reflexivity|].
  unfold bind. destruct (submit c w) as [[[]|e] w1]; [|reflexivity].
  rewrite IH. reflexivity.
Qed.

(** The scenario of the specification: from the empty list, Add, Toggle,
    Rename, Delete. *)
Example end_to_end_scenario :
  let w0 := {| ui := initialState; sent := []; console := [] |} in
  let w1 := after (submit (answering milk, "Buy milk")) w0 in
  let w2 := after (toggleTodo (answering milk_done) 1) w1 in
  let w3 := after (updateTodo (answering oat_milk_done) 1 "Buy oat milk") w2 in
  let w4 := after (deleteTodo (answering oat_milk_done) 1) w3 in
  todos (ui w1) = [milk] /\
  todos (ui w2) = [milk_done] /\
  todos (ui w3) = [oat_milk_done] /\
  todos (ui w4) = [] /\
  sent w4 = [PostTodo "Buy milk"; PatchToggle 1;
             PutTodo 1 "Buy oat milk"; DeleteTodo 1].
Proof. repeat split. Qed.

(** The two halves of [addTodo] make the whole. *)
Lemma addTodo_split (api : Backend) (w : World) :
  addTodo api w =
    (issued <- addTodoIssue ;;
     match issued with
     | None => ret tt
     | Some t => addTodoSettle (api (PostTodo t))
     end) w.
Proof.
  unfold addTodo, addTodoIssue, addTodoSettle, bind, get, fetch.
  destruct (truthy_string (newTodo (ui w))); simpl; [|reflexivity].
  destruct (api (PostTodo (newTodo (ui w)))) as [[|d]|]; reflexivity.
Qed.

Lemma addStep_issue (call : Backend * string) (w : World) :
  snd call <> "" ->
  after (addStep (Issue call)) w =
    {| ui := {| todos := todos (ui w); newTodo := snd call;
                editingId := editingId (ui w); editTitle := editTitle (ui w) |};
       sent := sent w ++ [PostTodo (snd call)];
       console := console w |}.
Proof.
  intros Hne. apply truthy_string_nonempty in Hne.
  unfold after, addStep, addTodoIssue, bind, get. simpl.
  rewrite Hne. reflexivity.
Qed.

Lemma addStep_settle (call : Backend * string) (d : Todo) (w : World) :
  creates call d ->
  after (addStep (Settle call)) w =
    {| ui := {| todos := todos (ui w) ++ [d]; newTodo := "";
                editingId := editingId (ui w); editTitle := editTitle (ui w) |};
       sent := sent w;
       console := console w |}.
Proof.
  intros [_ Hd]. unfold after, addStep, addTodoSettle. rewrite Hd. reflexivity.
Qed.

Lemma runAdds_app (l1 l2 : list AddStep) (w : World) :
  runAdds (l1 ++ l2) w = runAdds l2 (runAdds l1 w).
Proof.
  revert w. induction l1 as [|st l1 IH]; intros w; simpl; [reflexivity|].
  apply IH.
Qed.

Lemma settledCalls_app (l1 l2 : list AddStep) :
  settledCalls (l1 ++ l2) = settledCalls l1 ++ settledCalls l2.
Proof.
  induction l1 as [|[c|c] l1 IH]; simpl; [reflexivity | exact IH |].
  f_equal. exact IH.
Qed.

Lemma sequential_calls (calls : list (Backend * string)) :
  issuedCalls (sequential calls) = calls /\
  settledCalls (sequential calls) = calls.
Proof.
  induction calls as [|c calls [IHi IHs]]; simpl; [split; reflexivity|].
  rewrite IHi, IHs. split; reflexivity.
Qed.

(** A run of steps whose issues have titles and whose responses carry
    items: the list grows by the items in the order of the responses, the log
    by the requests in the order of the clicks. *)
Lemma runAdds_creates (steps : list AddStep) :
  forall (items : list Todo) (w : World),
    Forall (fun call => snd call <> "") (issuedCalls steps) ->
    Forall2 creates (settledCalls steps) items ->
    todos (ui (runAdds steps w)) = todos (ui w) ++ items /\
    sent (runAdds steps w) = sent w ++ (PostTodo ∘ snd <$> issuedCalls steps).
Proof.
  induction steps as [|[call|call] steps IH]; intros items w Hissued Hsettled;
    cbn [runAdds issuedCalls settledCalls] in *.
  - apply Forall2_nil_inv_l in Hsettled. subst items.
    simpl. rewrite !app_nil_r. split; reflexivity.
  - apply Forall_cons in Hissued as [Hne Hissued].
    destruct (IH items (after (addStep (Issue call)) w) Hissued Hsettled)
      as [Htodos Hsent].
    rewrite Htodos, Hsent, (addStep_issue call w Hne). simpl.
    rewrite <- app_assoc. split; reflexivity.
  - apply Forall2_cons_inv_l in Hsettled as (d & items' & Hd & Hsettled & ->).
    destruct (IH items' (after (addStep (Settle call)) w) Hissued Hsettled)
      as [Htodos Hsent].
    rewrite Htodos, Hsent, (addStep_settle call d w Hd). simpl.
    rewrite <- app_assoc. split; reflexivity.
Qed.

(** When each call settles before the next is issued, the run is the run of
    the whole handlers one after the other. *)
Lemma sequential_submitAll (calls : list (Backend * string)) (items : list Todo) :
  Forall2 creates calls items ->
  forall w : World,
    runAdds (sequential calls) w = after (submitAll calls) w /\
    settled (submitAll calls) w = Fulfilled tt.
Proof.
  induction 1 as [|call d calls items Hcall Hrest IH]; intros w;
    cbn [sequential runAdds submitAll].
  - split; reflexivity.
  - unfold after at 3. unfold settled.
    rewrite (bind_fulfilled _ _ _ _ _ (submit_creates call d w Hcall)).
    rewrite (addStep_issue call w (proj1 Hcall)).
    rewrite (addStep_settle call d _ Hcall).
    apply IH.
Qed.

(** The three patches keep the places in order: a place of the old list
    whose id is still in the new list has a place there, which holds an item
    of the same id (the same item, when the item is still in the list) and
    grows with the old place. *)
Lemma applyPatch_places (p : Patch) (l : list Todo) :
  exists pos : nat -> nat,
    (forall (j : nat) (t : Todo),
       l !! j = Some t -> has_id (id t) (applyPatch p l) ->
       exists t', applyPatch p l !! pos j = Some t' /\ id t' = id t /\
                  (t ∈ applyPatch p l -> t' = t)) /\
    (forall (j k : nat) (t u : Todo),
       l !! j = Some t -> l !! k = Some u ->
       has_id (id t) (applyPatch p l) -> has_id (id u) (applyPatch p l) ->
       ((j < k)%nat <-> (pos j < pos k)%nat)).
Proof.
  destruct p as [d|d|i|]; simpl.
  - exists (fun j => j). split; [|reflexivity].
    intros j t Hj _. exists t. unfold appendTodo.
    split; [apply lookup_app_l_Some, Hj | split; reflexivity].
  - exists (fun j => j). split; [|reflexivity].
    intros j t Hj _.
    destruct (replaceTodo_lookup d l j t Hj) as [Heq Hne].
    destruct (decide (id t = id d)) as [Hid|Hid].
    + exists d. split; [exact (Heq Hid)|]. split; [symmetry; exact Hid|].
      intros Hin. unfold replaceTodo in Hin.
      apply list_elem_of_fmap in Hin as (y & Hy & _).
      destruct (id y =? id d) eqn:Hyd; [symmetry; exact Hy|].
      apply Z.eqb_neq in Hyd. congruence.
    + exists t. split; [exact (Hne Hid) | split; reflexivity].
  - exists (fun j => length (removeTodo i (take j l))).
    assert (Hkept : forall t, has_id (id t) (removeTodo i l) -> id t <> i).
    { intros t (t0 & Ht0 & Hid). apply removeTodo_elem in Ht0. destruct Ht0. congruence. }
    split.
    + intros j t Hj Ht. exists t.
      split; [apply removeTodo_lookup; [exact Hj | apply Hkept, Ht]|].
      split; reflexivity.
    + intros j k t u Hj Hk Ht Hu. apply Hkept in Ht, Hu. split.
      * apply (removeTodo_take_lt i l j k t Hj Ht).
      * intros Hlt. destruct (Nat.lt_ge_cases j k) as [H|H]; [exact H|].
        pose proof (removeTodo_take_le i l k j H). lia.
  - exists (fun j => j). split; [|reflexivity].
    intros j t Hj _. exists t. split; [exact Hj | split; reflexivity].
Qed.

(** ** The claims *)

(** C1, as the specification words it, fails: [toggleTodo] patches by the id of
    the returned item, not by the id it was called with.  Toggling 1 against a
    backend that answers with item 2 rewrites item 2. *)
Lemma toggle_patches_another_id :
  ~ only_id_changes 1
      (todos (ui (viewing [milk; bread])))
      (todos (ui (after (toggleTodo (answering bread_done) 1)
                        (viewing [milk; bread])))).
Proof.
  intros H. specialize (H 1%nat bread eq_refl). simpl in H.
  assert (Hne : (2 : Z) <> 1) by lia.
  specialize (H Hne). discriminate H.
Qed.

(** C1 (amended): after a Toggle(i) or a Rename(i, t) whose response is an
    item [d], the call is fulfilled, the items of the local list whose id is
    the id of [d] are replaced by [d], and every other item is unchanged by
    value, at its place.  When [d] carries the id of the call, only the items
    with the id of the call change. *)
Theorem toggle_rename_replace_by_returned_id
    (api : Backend) (w : World) (i : Z) (t : string) (d : Todo) :
  (api (PatchToggle i) = Some (Parsed d) ->
   settled (toggleTodo api i) w = Fulfilled tt /\
   replaced_by d (todos (ui w)) (todos (ui (after (toggleTodo api i) w))) /\
   (id d = i ->
    only_id_changes i (todos (ui w)) (todos (ui (after (toggleTodo api i) w))))) /\
  (api (PutTodo i t) = Some (Parsed d) ->
   settled (updateTodo api i t) w = Fulfilled tt /\
   replaced_by d (todos (ui w)) (todos (ui (after (updateTodo api i t) w))) /\
   (id d = i ->
    only_id_changes i (todos (ui w)) (todos (ui (after (updateTodo api i t) w))))).
Proof.
  assert (Hr : forall l, replaced_by d l (replaceTodo d l)).
  { intros l. split; [apply replaceTodo_length|].
    intros k u Hk. apply replaceTodo_lookup, Hk. }
  assert (Ho : forall l, id d = i -> only_id_changes i l (replaceTodo d l)).
  { intros l <- k u Hk Hne. apply (replaceTodo_lookup d l k u Hk), Hne. }
  unfold settled, after. split; intros H.
  - rewrite (toggleTodo_parsed _ _ _ _ H). simpl.
    split; [reflexivity|]. split; [apply Hr | apply Ho].
  - rewrite (updateTodo_parsed _ _ _ _ _ H). simpl.
    split; [reflexivity|]. split; [apply Hr | apply Ho].
Qed.

Lemma toggle_rename_replace_by_returned_id_witness :
  answering bread_done (PatchToggle 2) = Some (Parsed bread_done) /\
  answering bread_done (PutTodo 2 "Bake bread") = Some (Parsed bread_done) /\
  replaced_by bread_done [milk; bread]
    (todos (ui (after (toggleTodo (answering bread_done) 2) (viewing [milk; bread])))) /\
  only_id_changes 2 [milk; bread]
    (todos (ui (after (updateTodo (answering bread_done) 2 "Bake bread")
                      (viewing [milk; bread])))).
Proof.
  pose proof (toggle_rename_replace_by_returned_id
                (answering bread_done) (viewing [milk; bread]) 2 "Bake bread"
                bread_done) as [Ht Hu].
  split; [reflexivity|]. split; [reflexivity|].
  split; [apply Ht | apply Hu]; reflexivity.
Defined.

(** C9: when the item returned by a Rename or a Toggle carries an id that no
    item of the local list has, the local list is unchanged. *)
Theorem unknown_returned_id_changes_nothing
    (api : Backend) (w : World) (i : Z) (t : string) (d : Todo) :
  (forall u, u ∈ todos (ui w) -> id u <> id d) ->
  (api (PatchToggle i) = Some (Parsed d) ->
   todos (ui (after (toggleTodo api i) w)) = todos (ui w)) /\
  (api (PutTodo i t) = Some (Parsed d) ->
   todos (ui (after (updateTodo api i t) w)) = todos (ui w)).
Proof.
  intros Hfresh. unfold after. split; intros H.
  - rewrite (toggleTodo_parsed _ _ _ _ H). simpl.
    apply replaceTodo_absent, Hfresh.
  - rewrite (updateTodo_parsed _ _ _ _ _ H). simpl.
    apply replaceTodo_absent, Hfresh.
Qed.

Lemma unknown_returned_id_changes_nothing_witness :
  todos (ui (after (toggleTodo (answering eggs) 3) (viewing [milk; bread])))
    = [milk; bread] /\
  todos (ui (after (updateTodo (answering eggs) 3 "Boil eggs") (viewing [milk; bread])))
    = [milk; bread].
Proof.
  assert (Hfresh : forall u, u ∈ todos (ui (viewing [milk; bread])) -> id u <> id eggs).
  { intros u Hu. simpl in Hu.
    apply elem_of_cons in Hu as [->|Hu]; [simpl; lia|].
    apply elem_of_cons in Hu as [->|Hu]; [simpl; lia|].
    apply elem_of_nil in Hu. destruct Hu. }
  pose proof (unknown_returned_id_changes_nothing
                (answering eggs) (viewing [milk; bread]) 3 "Boil eggs" eggs Hfresh)
    as [Ht Hu].
  split; [apply Ht | apply Hu]; reflexivity.
Defined.

(** C7: a successful Delete(i) sends one DELETE request and removes the items
    whose id is [i] and nothing else: the items left are those of the old list
    with another id, in their old order; when one item carries the id, the
    list loses exactly that item; when none does, the list is unchanged. *)
Theorem delete_removes_matching_id
    (api : Backend) (w : World) (i : Z) (b : Body unit) :
  api (DeleteTodo i) = Some b ->
  let before := todos (ui w) in
  let after_ := todos (ui (after (deleteTodo api i) w)) in
  settled (deleteTodo api i) w = Fulfilled tt /\
  sent (after (deleteTodo api i) w) = sent w ++ [DeleteTodo i] /\
  (forall t, t ∈ after_ <-> t ∈ before /\ id t <> i) /\
  after_ `sublist_of` before /\
  (forall l1 t l2, before = l1 ++ t :: l2 -> id t = i ->
     (forall u, u ∈ l1 ++ l2 -> id u <> i) -> after_ = l1 ++ l2) /\
  ((forall u, u ∈ before -> id u <> i) -> after_ = before).
Proof.
  intros H before after_. subst before after_. unfold settled, after.
  rewrite (deleteTodo_answered _ _ _ _ H). simpl.
  split; [reflexivity|]. split; [reflexivity|].
  split; [intros t; apply removeTodo_elem|].
  split.
  { unfold removeTodo. induction (todos (ui w)) as [|u l IH]; simpl.
    - constructor.
    - destruct (negb (id u =? i)); [apply sublist_skip | apply sublist_cons]; exact IH. }
  split.
  - intros l1 t l2 -> Ht Hrest.
    rewrite removeTodo_app, removeTodo_drop by exact Ht.
    rewrite <- removeTodo_app. apply removeTodo_absent, Hrest.
  - apply removeTodo_absent.
Qed.

Lemma delete_removes_matching_id_witness :
  todos (ui (after (deleteTodo (answering milk) 2) (viewing [milk; bread; eggs])))
    = [milk; eggs].
Proof.
  pose proof (delete_removes_matching_id
                (answering milk) (viewing [milk; bread; eggs]) 2 (Parsed tt) eq_refl)
    as (_ & _ & _ & _ & Hone & _).
  apply (Hone [milk] bread [eggs]); [reflexivity | reflexivity |].
  intros u Hu. simpl in Hu.
  apply elem_of_cons in Hu as [->|Hu]; [simpl; lia|].
  apply elem_of_cons in Hu as [->|Hu]; [simpl; lia|].
  apply elem_of_nil in Hu. destruct Hu.
Defined.

(** C2: Add with a draft that is empty or white space only is to be a
    no-op.  [addTodo] guards with [!newTodo] and does not trim, unlike
    [saveEdit]: a draft of two spaces is white space only, yet Add posts it,
    appends the item returned and clears the draft. *)
Lemma add_posts_blank_title :
  all_white "  " = true /\
  sent (after (addTodo (answering eggs)) (drafting [milk] "  "))
    = [PostTodo "  "] /\
  todos (ui (after (addTodo (answering eggs)) (drafting [milk] "  ")))
    = [milk; eggs] /\
  newTodo (ui (after (addTodo (answering eggs)) (drafting [milk] "  "))) = "" /\
  after (addTodo (answering eggs)) (drafting [milk] "  ")
    <> drafting [milk] "  ".
Proof.
  repeat split.
  intros H. apply (f_equal sent) in H. discriminate H.
Qed.

(** The guard of [addTodo]: the empty draft stops it before any request and
    leaves the world as it is; every other draft, white space included, is
    posted as the title. *)
Lemma addTodo_guard (api : Backend) (w : World) :
  (newTodo (ui w) = "" -> addTodo api w = (Fulfilled tt, w)) /\
  (newTodo (ui w) <> "" ->
   sent (after (addTodo api) w) = sent w ++ [PostTodo (newTodo (ui w))]).
Proof.
  split; [apply addTodo_empty|].
  intros Hne. apply truthy_string_nonempty in Hne.
  unfold after, addTodo, bind, get, fetch. rewrite Hne. simpl.
  destruct (api (PostTodo (newTodo (ui w)))) as [[|d]|]; reflexivity.
Qed.

(** C3: Load never rejects and ends in one of two ways: when the response
    parses as a JSON array the local list becomes that array; in every other
    case (no response, a body that is not JSON, a parsed value that is not an
    array) the local list becomes empty. *)
Theorem load_two_outcomes (api : Backend) (w : World) :
  settled (fetchTodos api) w = Fulfilled tt /\
  sent (after (fetchTodos api) w) = sent w ++ [GetTodos] /\
  (forall items, api GetTodos = Some (Parsed (JArray items)) ->
     todos (ui (after (fetchTodos api) w)) = items) /\
  ((forall items, api GetTodos <> Some (Parsed (JArray items))) ->
     todos (ui (after (fetchTodos api) w)) = []) /\
  (api GetTodos = None \/ api GetTodos = Some NotJson ->
     exists e, console (after (fetchTodos api) w)
               = console w ++ [FailedToFetchTodos e]).
Proof.
  unfold settled, after, fetchTodos, try_catch, bind, fetch.
  destruct (api GetTodos) as [[|v]|] eqn:Hapi; simpl.
  - repeat split; try reflexivity; [discriminate | eauto].
  - repeat split; try reflexivity.
    + intros items [= ->]. reflexivity.
    + intros Hno. destruct v; try reflexivity.
      exfalso. apply (Hno items). reflexivity.
    + intros [H|H]; discriminate H.
  - repeat split; try reflexivity; [discriminate | eauto].
Qed.

Lemma load_two_outcomes_witness :
  todos (ui (after (fetchTodos (answering milk)) (viewing [bread; eggs]))) = [milk] /\
  todos (ui (after (fetchTodos objecting) (viewing [bread; eggs]))) = [] /\
  todos (ui (after (fetchTodos offline) (viewing [bread; eggs]))) = [] /\
  todos (ui (after (fetchTodos garbled) (viewing [bread; eggs]))) = [].
Proof.
  split; [|split; [|split]].
  - apply (load_two_outcomes (answering milk) (viewing [bread; eggs])).
    reflexivity.
  - apply (load_two_outcomes objecting (viewing [bread; eggs])).
    intros items H. discriminate H.
  - apply (load_two_outcomes offline (viewing [bread; eggs])).
    intros items H. discriminate H.
  - apply (load_two_outcomes garbled (viewing [bread; eggs])).
    intros items H. discriminate H.
Defined.

(** C4, as the specification words it, fails: when the Rename call fails,
    [saveEdit] is rejected before it reaches the two setters, and the view
    stays in edit mode with its draft. *)
Lemma save_rejected_keeps_editing :
  all_white "Buy oat milk" = false /\
  settled (saveEdit offline) (editing [milk] 1 "Buy oat milk")
    = Rejected FetchFailed /\
  editingId (ui (after (saveEdit offline) (editing [milk] 1 "Buy oat milk")))
    = Some 1 /\
  editTitle (ui (after (saveEdit offline) (editing [milk] 1 "Buy oat milk")))
    = "Buy oat milk".
Proof. repeat split. Qed.

(** C4 (amended): with [editingId] set to a non-zero id and an edit draft that
    is not white space only, SaveEdit sends one Rename with the trimmed draft.
    When the Rename returns an item, SaveEdit is fulfilled, the item is
    patched into the list, and [editingId] and the edit draft are cleared.
    When the Rename fails (no response, or a body that is not JSON), SaveEdit
    is rejected and the React state, edit mode included, is unchanged. *)
Theorem save_clears_after_rename
    (api : Backend) (w : World) (i : Z) :
  editingId (ui w) = Some i -> i <> 0 ->
  all_white (editTitle (ui w)) = false ->
  let t := trim (editTitle (ui w)) in
  sent (after (saveEdit api) w) = sent w ++ [PutTodo i t] /\
  (forall d : Todo, api (PutTodo i t) = Some (Parsed d) ->
     settled (saveEdit api) w = Fulfilled tt /\
     editingId (ui (after (saveEdit api) w)) = None /\
     editTitle (ui (after (saveEdit api) w)) = "" /\
     todos (ui (after (saveEdit api) w)) = replaceTodo d (todos (ui w))) /\
  (api (PutTodo i t) = None \/ api (PutTodo i t) = Some NotJson ->
     (exists e, settled (saveEdit api) w = Rejected e) /\
     ui (after (saveEdit api) w) = ui w).
Proof.
  intros Hid Hi Hdraft t. subst t.
  unfold settled, after.
  rewrite (saveEdit_runs api w i Hid Hi Hdraft).
  split; [|split].
  - unfold updateTodo, bind, fetch.
    destruct (api (PutTodo i (trim (editTitle (ui w))))) as [[|d]|]; reflexivity.
  - intros d H.
    rewrite (bind_fulfilled _ _ _ _ _ (updateTodo_parsed _ _ _ _ _ H)).
    repeat split.
  - intros H. destruct (updateTodo_failed _ _ _ w H) as [e He].
    rewrite (bind_rejected _ _ _ _ _ He). split; [eauto | reflexivity].
Qed.

Lemma save_clears_after_rename_witness :
  editingId (ui (after (saveEdit (answering (mkTodo 1 "Buy oat milk" false)))
                       (editing [milk] 1 " Buy oat milk "))) = None /\
  ui (after (saveEdit garbled) (editing [milk] 1 " Buy oat milk "))
    = ui (editing [milk] 1 " Buy oat milk ").
Proof.
  assert (Hne : (1 : Z) <> 0) by lia.
  split.
  - pose proof (save_clears_after_rename
                  (answering (mkTodo 1 "Buy oat milk" false))
                  (editing [milk] 1 " Buy oat milk ") 1 eq_refl Hne eq_refl)
      as (_ & Hok & _).
    apply (Hok (mkTodo 1 "Buy oat milk" false)). reflexivity.
  - pose proof (save_clears_after_rename garbled
                  (editing [milk] 1 " Buy oat milk ") 1 eq_refl Hne eq_refl)
      as (_ & _ & Hfail).
    apply Hfail. right. reflexivity.
Defined.

(** C5, as the specification words it, fails: with a draft of white space
    only, [saveEdit] skips its whole body, the two setters included, and the
    view stays in edit mode. *)
Lemma save_blank_keeps_editing :
  all_white "  " = true /\
  editingId (ui (after (saveEdit (answering milk)) (editing [milk] 1 "  ")))
    = Some 1.
Proof. split; reflexivity. Qed.

(** C5 (amended): for an edit draft that is white space only, SaveEdit is a
    no-op: it performs no network call and leaves the local list, the target
    item's title included, and the edit state ([editingId] and the edit draft)
    as they were. *)
Theorem save_blank_draft_is_noop (api : Backend) (w : World) :
  all_white (editTitle (ui w)) = true ->
  saveEdit api w = (Fulfilled tt, w).
Proof.
  intros Hdraft. unfold saveEdit, bind, get. simpl.
  rewrite trim_truthy, Hdraft, andb_false_r.
  destruct (editingId (ui w)); reflexivity.
Qed.

Lemma save_blank_draft_is_noop_witness :
  saveEdit (answering milk) (editing [milk] 1 "  ")
    = (Fulfilled tt, editing [milk] 1 "  ").
Proof.
  apply (save_blank_draft_is_noop (answering milk) (editing [milk] 1 "  ")).
  reflexivity.
Defined.

(** C8: BeginEdit(item) followed at once by CancelEdit leaves the local list
    (and the draft of a new item) unchanged and ends in Idle, with
    [editingId] and the edit draft cleared; neither operation makes a
    network call, and in between the view edits the item. *)
Theorem begin_then_cancel_edit (w : World) (todo : Todo) :
  settled (startEdit todo ;; cancelEdit) w = Fulfilled tt /\
  todos (ui (after (startEdit todo ;; cancelEdit) w)) = todos (ui w) /\
  newTodo (ui (after (startEdit todo ;; cancelEdit) w)) = newTodo (ui w) /\
  editingId (ui (after (startEdit todo ;; cancelEdit) w)) = None /\
  editTitle (ui (after (startEdit todo ;; cancelEdit) w)) = "" /\
  sent (after (startEdit todo ;; cancelEdit) w) = sent w /\
  sent (after (startEdit todo) w) = sent w /\
  todos (ui (after (startEdit todo) w)) = todos (ui w) /\
  editingId (ui (after (startEdit todo) w)) = Some (id todo) /\
  editTitle (ui (after (startEdit todo) w)) = title todo.
Proof. repeat split. Qed.

(** C6, as the specification words it, fails: nothing makes an Add wait for
    the one before it.  "Buy milk" is added, then "Bake bread" while the first
    call is pending; the second response arrives first.  The requests went
    out in call order and each call got its own item, yet the tail of the
    list is in the order of arrival, not of the calls. *)
Lemma overlapping_adds_follow_arrival :
  let steps := [Issue (answering milk, "Buy milk");
                Issue (answering bread, "Bake bread");
                Settle (answering bread, "Bake bread");
                Settle (answering milk, "Buy milk")] in
  Forall2 creates (issuedCalls steps) [milk; bread] /\
  sent (runAdds steps (viewing [eggs]))
    = [PostTodo "Buy milk"; PostTodo "Bake bread"] /\
  todos (ui (runAdds steps (viewing [eggs]))) = [eggs; bread; milk] /\
  todos (ui (runAdds steps (viewing [eggs])))
    <> todos (ui (viewing [eggs])) ++ [milk; bread].
Proof.
  cbv zeta. split; [|split; [|split]].
  - repeat constructor; discriminate.
  - reflexivity.
  - reflexivity.
  - discriminate.
Qed.

(** C6 (amended): in a run of successful Add calls with non-empty titles,
    overlapping or not, each returned item is appended at the tail when its
    response arrives: the list is the initial list followed by the returned
    items in the order of arrival, and the requests went out in the order of
    the calls.  Each arriving response clears the draft text.  When each call
    settles before the next is issued, the run is that of the handlers one
    after the other, all fulfilled, and the order of arrival is the order of
    the calls. *)
Theorem adds_append_in_arrival_order
    (steps : list AddStep) (items : list Todo) (w : World) :
  Forall (fun call => snd call <> "") (issuedCalls steps) ->
  Forall2 creates (settledCalls steps) items ->
  todos (ui (runAdds steps w)) = todos (ui w) ++ items /\
  sent (runAdds steps w) = sent w ++ (PostTodo ∘ snd <$> issuedCalls steps) /\
  (forall pre call, steps = pre ++ [Settle call] ->
     newTodo (ui (runAdds steps w)) = "") /\
  (forall calls, steps = sequential calls ->
     settledCalls steps = calls /\
     runAdds steps w = after (submitAll calls) w /\
     settled (submitAll calls) w = Fulfilled tt).
Proof.
  intros Hissued Hsettled.
  destruct (runAdds_creates steps items w Hissued Hsettled) as [Htodos Hsent].
  split; [exact Htodos|]. split; [exact Hsent|]. split.
  - intros pre call ->. rewrite settledCalls_app in Hsettled.
    apply Forall2_app_inv_l in Hsettled as (items1 & items2 & _ & Hlast & _).
    cbn [settledCalls] in Hlast.
    apply Forall2_cons_inv_l in Hlast as (d & items' & Hd & _ & _).
    rewrite runAdds_app. cbn [runAdds].
    rewrite (addStep_settle call d _ Hd). reflexivity.
  - intros calls ->. destruct (sequential_calls calls) as [_ Hs].
    rewrite Hs in Hsettled. split; [exact Hs|].
    apply (sequential_submitAll calls items Hsettled).
Qed.

Lemma adds_append_in_arrival_order_witness :
  todos (ui (runAdds [Issue (answering milk, "Buy milk");
                      Issue (answering bread, "Bake bread");
                      Settle (answering bread, "Bake bread");
                      Settle (answering milk, "Buy milk")]
                     (viewing [eggs])))
    = [eggs; bread; milk] /\
  todos (ui (after (submitAll [(answering milk, "Buy milk");
                               (answering bread, "Bake bread")])
                   (viewing [eggs])))
    = [eggs; milk; bread].
Proof.
  split.
  - assert (Hissued : Forall (fun call : Backend * string => snd call <> "")
                        [(answering milk, "Buy milk");
                         (answering bread, "Bake bread")]).
    { repeat constructor; discriminate. }
    assert (Hsettled : Forall2 creates
                         [(answering bread, "Bake bread");
                          (answering milk, "Buy milk")]
                         [bread; milk]).
    { repeat constructor; discriminate. }
    pose proof (adds_append_in_arrival_order
                  [Issue (answering milk, "Buy milk");
                   Issue (answering bread, "Bake bread");
                   Settle (answering bread, "Bake bread");
                   Settle (answering milk, "Buy milk")]
                  [bread; milk] (viewing [eggs]) Hissued Hsettled)
      as (Htodos & _).
    exact Htodos.
  - assert (Hissued : Forall (fun call : Backend * string => snd call <> "")
                        [(answering milk, "Buy milk");
                         (answering bread, "Bake bread")]).
    { repeat constructor; discriminate. }
    assert (Hsettled : Forall2 creates
                         [(answering milk, "Buy milk");
                          (answering bread, "Bake bread")]
                         [milk; bread]).
    { repeat constructor; discriminate. }
    pose proof (adds_append_in_arrival_order
                  (sequential [(answering milk, "Buy milk");
                               (answering bread, "Bake bread")])
                  [milk; bread] (viewing [eggs]) Hissued Hsettled)
      as (Htodos & _ & _ & Hseq).
    destruct (Hseq _ eq_refl) as (_ & Hrun & _).
    rewrite <- Hrun. exact Htodos.
Defined.

(** C10: every operation that patches the local list (Add, Rename, Delete,
    Toggle), whatever the backend answers, keeps the relative order of the
    items it does not remove.  Only a Delete removes, and only items of its
    id: the id of every other item of the old list is still in the new list.
    There is a placement of old places into new places under which every
    place that is not removed is found again, holding an item of the same id
    (the very item, when it is still in the list by value), and under which
    two such places keep their order. *)
Theorem patches_preserve_order (api : Backend) (op : Op) (w : World) :
  let before := todos (ui w) in
  let after_ := todos (ui (after (perform api op) w)) in
  (forall (j : nat) (t : Todo),
     before !! j = Some t ->
     (forall i, op = Delete i -> id t <> i) ->
     has_id (id t) after_) /\
  exists pos : nat -> nat,
    (forall (j : nat) (t : Todo),
       before !! j = Some t -> has_id (id t) after_ ->
       exists t', after_ !! pos j = Some t' /\ id t' = id t /\
                  (t ∈ after_ -> t' = t)) /\
    (forall (j k : nat) (t u : Todo),
       before !! j = Some t -> before !! k = Some u ->
       has_id (id t) after_ -> has_id (id u) after_ ->
       ((j < k)%nat <-> (pos j < pos k)%nat)).
Proof.
  intros before after_. subst before after_.
  destruct (perform_patches api op w) as (p & -> & Hremove).
  split; [|apply applyPatch_places].
  intros j t Hj Hop.
  assert (Hin : has_id (id t) (todos (ui w))).
  { exists t. split; [|reflexivity]. apply list_elem_of_lookup. eauto. }
  destruct p as [d|d|i|]; simpl.
  - apply has_id_app, Hin.
  - apply has_id_replaceTodo, Hin.
  - apply has_id_removeTodo; [exact Hin|]. apply Hop, Hremove. reflexivity.
  - exact Hin.
Qed.

Lemma patches_preserve_order_witness :
  exists pos : nat -> nat,
    (pos 0 < pos 2)%nat /\
    (exists t', todos (ui (after (perform (answering bread_done) (Toggle 2))
                                 (viewing [milk; bread; eggs]))) !! pos 1%nat
                = Some t' /\ id t' = 2) /\
    has_id 3 (todos (ui (after (perform (answering milk) (Delete 2))
                               (viewing [milk; bread; eggs])))).
Proof.
  destruct (patches_preserve_order (answering bread_done) (Toggle 2)
              (viewing [milk; bread; eggs])) as (Hkept & pos & Hplace & Horder).
  destruct (patches_preserve_order (answering milk) (Delete 2)
              (viewing [milk; bread; eggs])) as (Hkept' & _).
  assert (Hnot : forall t : Todo, forall i, Toggle 2 = Delete i -> id t <> i)
    by (intros t i H; discriminate H).
  assert (H0 : has_id (id milk)
                 (todos (ui (after (perform (answering bread_done) (Toggle 2))
                                   (viewing [milk; bread; eggs])))))
    by exact (Hkept 0%nat milk eq_refl (Hnot milk)).
  assert (H1 : has_id (id bread)
                 (todos (ui (after (perform (answering bread_done) (Toggle 2))
                                   (viewing [milk; bread; eggs])))))
    by exact (Hkept 1%nat bread eq_refl (Hnot bread)).
  assert (H2 : has_id (id eggs)
                 (todos (ui (after (perform (answering bread_done) (Toggle 2))
                                   (viewing [milk; bread; eggs])))))
    by exact (Hkept 2%nat eggs eq_refl (Hnot eggs)).
  exists pos. split; [|split].
  - apply (Horder 0%nat 2%nat milk eggs eq_refl eq_refl H0 H2). lia.
  - destruct (Hplace 1%nat bread eq_refl H1) as (t' & Hat & Hid & _).
    exists t'. split; [exact Hat | exact Hid].
  - apply (Hkept' 2%nat eggs eq_refl).
    intros i [= <-]. simpl. lia.
Defined.

(** ** Tactics for the handlers *)

(** The handlers of [perform], whatever the backend answers. *)
Ltac run_perform api op w :=
  unfold after, settled;
  destruct op as [|?i ?t|?i|?i]; simpl;
  [ unfold addTodo, bind, get, fetch;
    destruct (truthy_string (newTodo (ui w))) eqn:?Hdraft; simpl;
    [destruct (api (PostTodo (newTodo (ui w)))) as [[|?d]|] eqn:?Hapi; simpl|]
  | unfold updateTodo, bind, fetch;
    match goal with
    | |- context [api (PutTodo ?i ?t)] =>
        destruct (api (PutTodo i t)) as [[|?d]|] eqn:?Hapi; simpl
    end
  | unfold deleteTodo, bind, fetch;
    match goal with
    | |- context [api (DeleteTodo ?i)] =>
        destruct (api (DeleteTodo i)) as [?b|] eqn:?Hapi; simpl
    end
  | unfold toggleTodo, bind, fetch;
    match goal with
    | |- context [api (PatchToggle ?i)] =>
        destruct (api (PatchToggle i)) as [[|?d]|] eqn:?Hapi; simpl
    end ].

(** What [saveEdit] does to the world, whatever the backend answers: nothing;
    or the Rename goes out and fails; or it goes out, the returned item is
    patched in and the edit state is cleared. *)
Lemma saveEdit_cases (api : Backend) (w : World) :
  saveEdit api w = (Fulfilled tt, w) \/
  (exists i e,
     editingId (ui w) = Some i /\
     saveEdit api w = (Rejected e, logged (PutTodo i (trim (editTitle (ui w)))) w)) \/
  (exists i d,
     editingId (ui w) = Some i /\
     saveEdit api w =
       (Fulfilled tt,
        {| ui := {| todos := replaceTodo d (todos (ui w));
                    newTodo := newTodo (ui w);
                    editingId := None; editTitle := "" |};
           sent := sent w ++ [PutTodo i (trim (editTitle (ui w)))];
           console := console w |})).
Proof.
  destruct (editingId (ui w)) as [i|] eqn:Hid.
  2:{ left. unfold saveEdit, bind, get. simpl. rewrite Hid. reflexivity. }
  destruct (decide (i = 0)) as [->|Hi].
  { left. unfold saveEdit, bind, get. simpl. rewrite Hid. reflexivity. }
  destruct (all_white (editTitle (ui w))) eqn:Hdraft.
  { left. unfold saveEdit, bind, get. simpl.
    rewrite Hid, trim_truthy, Hdraft, andb_false_r. reflexivity. }
  right. rewrite (saveEdit_runs api w i Hid Hi Hdraft).
  destruct (api (PutTodo i (trim (editTitle (ui w))))) as [[|d]|] eqn:Hapi.
  - left. exists i.
    destruct (updateTodo_failed api i _ w (or_intror Hapi)) as [e He].
    exists e. split; [reflexivity|].
    apply (bind_rejected _ _ _ _ _ He).
  - right. exists i, d. split; [reflexivity|].
    rewrite (bind_fulfilled _ _ _ _ _ (updateTodo_parsed _ _ _ _ _ Hapi)).
    reflexivity.
  - left. exists i.
    destruct (updateTodo_failed api i _ w (or_introl Hapi)) as [e He].
    exists e. split; [reflexivity|].
    apply (bind_rejected _ _ _ _ _ He).
Qed.

(** ** Further properties of the handlers *)

(** X1: Toggle, Rename and SaveEdit never change which ids the local list
    holds, nor their order, whatever the backend answers: the returned item
    only overwrites items that already carry its id. *)
Theorem rename_toggle_keep_ids (api : Backend) (w : World) (i : Z) (t : string) :
  id <$> todos (ui (after (toggleTodo api i) w)) = id <$> todos (ui w) /\
  id <$> todos (ui (after (updateTodo api i t) w)) = id <$> todos (ui w) /\
  id <$> todos (ui (after (saveEdit api) w)) = id <$> todos (ui w).
Proof.
  split; [|split].
  - unfold after, toggleTodo, bind, fetch.
    destruct (api (PatchToggle i)) as [[|d]|]; simpl;
      [reflexivity | apply replaceTodo_ids | reflexivity].
  - unfold after, updateTodo, bind, fetch.
    destruct (api (PutTodo i t)) as [[|d]|]; simpl;
      [reflexivity | apply replaceTodo_ids | reflexivity].
  - unfold after.
    destruct (saveEdit_cases api w) as [H|[(j & e & _ & H)|(j & d & _ & H)]];
      rewrite H; simpl; [reflexivity | reflexivity | apply replaceTodo_ids].
Qed.

(** X2: a local list without duplicate ids stays so under Rename, Delete and
    Toggle, whatever the backend answers.  Under a successful Add it stays so
    exactly when the id of the returned item is not yet in the list: the
    client never checks, so a backend that reuses an id puts a duplicate in. *)
Theorem unique_ids_preserved (api : Backend) (op : Op) (w : World) :
  (op <> Add -> unique_ids (todos (ui w)) ->
   unique_ids (todos (ui (after (perform api op) w)))) /\
  (forall d : Todo,
     op = Add -> newTodo (ui w) <> "" ->
     api (PostTodo (newTodo (ui w))) = Some (Parsed d) ->
     (unique_ids (todos (ui (after (perform api op) w))) <->
      unique_ids (todos (ui w)) /\ ~ has_id (id d) (todos (ui w)))).
Proof.
  unfold unique_ids. split.
  - intros Hop Hu. run_perform api op w; try exact Hu; try congruence.
    + rewrite replaceTodo_ids. exact Hu.
    + apply (sublist_NoDup _ _ Hu).
      apply fmap_sublist, removeTodo_sublist.
    + rewrite replaceTodo_ids. exact Hu.
  - intros d -> Hne Hd. unfold after. simpl.
    rewrite (addTodo_parsed api d w Hne Hd). simpl.
    rewrite fmap_app, NoDup_app, has_id_dec. simpl. split.
    + intros (Hu & Hfresh & _). split; [exact Hu|].
      intros Hin. apply (Hfresh _ Hin). left.
    + intros [Hu Hfresh]. split; [exact Hu|]. split.
      * intros x Hx Hx'. apply list_elem_of_singleton in Hx'. subst x.
        exact (Hfresh Hx).
      * apply NoDup_singleton.
Qed.

Lemma unique_ids_preserved_witness :
  unique_ids (todos (ui (after (perform (answering milk_done) (Toggle 1))
                               (viewing [milk; bread])))) /\
  ~ unique_ids (todos (ui (after (perform (answering milk) Add)
                                 (drafting [milk; bread] "Buy milk")))).
Proof.
  assert (Hu : unique_ids [milk; bread]).
  { unfold unique_ids. simpl. apply NoDup_cons. split.
    - intros H. apply list_elem_of_singleton in H. discriminate H.
    - apply NoDup_singleton. }
  split.
  - apply (unique_ids_preserved (answering milk_done) (Toggle 1)
             (viewing [milk; bread])); [discriminate | exact Hu].
  - intros Hdup.
    assert (Hne : newTodo (ui (drafting [milk; bread] "Buy milk")) <> "")
      by discriminate.
    pose proof (unique_ids_preserved (answering milk) Add
                  (drafting [milk; bread] "Buy milk")) as [_ Hadd].
    apply (Hadd milk eq_refl Hne eq_refl) in Hdup.
    destruct Hdup as [_ Hfresh]. apply Hfresh.
    exists milk. split; [left | reflexivity].
Defined.

(** X3: a successful Add followed by a successful Delete of the id of the
    returned item leaves the local list as Delete alone would; when that id
    was not in the list before, the list is back to what it was. *)
Theorem add_then_delete_restores
    (api1 api2 : Backend) (w : World) (d : Todo) (b : Body unit) :
  newTodo (ui w) <> "" ->
  api1 (PostTodo (newTodo (ui w))) = Some (Parsed d) ->
  api2 (DeleteTodo (id d)) = Some b ->
  let w2 := after (deleteTodo api2 (id d)) (after (addTodo api1) w) in
  todos (ui w2) = todos (ui (after (deleteTodo api2 (id d)) w)) /\
  (~ has_id (id d) (todos (ui w)) -> todos (ui w2) = todos (ui w)).
Proof.
  intros Hne Hadd Hdel w2. subst w2. unfold after.
  rewrite (addTodo_parsed api1 d w Hne Hadd).
  rewrite !(deleteTodo_answered api2 (id d) b _ Hdel). simpl.
  assert (Hlist : removeTodo (id d) (todos (ui w) ++ [d])
                  = removeTodo (id d) (todos (ui w))).
  { rewrite removeTodo_app, (removeTodo_drop (id d) d [] eq_refl).
    apply app_nil_r. }
  split; [exact Hlist|].
  intros Hfresh. rewrite Hlist. apply removeTodo_absent.
  intros u Hu Hid. apply Hfresh. exists u. split; [exact Hu | exact Hid].
Qed.

Lemma add_then_delete_restores_witness :
  todos (ui (after (deleteTodo (answering eggs) 3)
                   (after (addTodo (answering eggs))
                          (drafting [milk; bread] "Boil eggs"))))
    = [milk; bread].
Proof.
  assert (Hne : newTodo (ui (drafting [milk; bread] "Boil eggs")) <> "")
    by discriminate.
  pose proof (add_then_delete_restores (answering eggs) (answering eggs)
                (drafting [milk; bread] "Boil eggs") eggs (Parsed tt)
                Hne eq_refl eq_refl) as [_ Hback].
  apply Hback. intros (u & Hu & Hid). simpl in Hu.
  apply elem_of_cons in Hu as [->|Hu]; [discriminate Hid|].
  apply elem_of_cons in Hu as [->|Hu]; [discriminate Hid|].
  apply elem_of_nil in Hu. exact Hu.
Defined.

(** X4: the patches of two responses commute when they are for different
    ids: two Rename or Toggle responses whose items have different ids, a
    removal and any Rename or Toggle response, and two removals give the same
    list in either order of arrival. *)
Theorem patches_commute (d1 d2 : Todo) (i j : Z) (l : list Todo) :
  (id d1 <> id d2 ->
   replaceTodo d1 (replaceTodo d2 l) = replaceTodo d2 (replaceTodo d1 l)) /\
  removeTodo i (replaceTodo d1 l) = replaceTodo d1 (removeTodo i l) /\
  removeTodo i (removeTodo j l) = removeTodo j (removeTodo i l).
Proof.
  split; [|split; [apply removeTodo_replaceTodo | apply removeTodo_comm]].
  intros Hne. unfold replaceTodo. rewrite <- !list_fmap_compose.
  apply list_fmap_ext. intros k u _. simpl.
  destruct (id u =? id d2) eqn:H2; destruct (id u =? id d1) eqn:H1;
    rewrite ?Z.eqb_refl, ?H1, ?H2; try reflexivity.
  - apply Z.eqb_eq in H1, H2. congruence.
  - apply Z.eqb_neq in Hne. rewrite Z.eqb_sym in Hne. rewrite Hne. reflexivity.
  - apply Z.eqb_neq in Hne. rewrite Hne. reflexivity.
Qed.

Lemma patches_commute_witness :
  replaceTodo milk_done (replaceTodo bread_done [milk; bread; eggs])
    = replaceTodo bread_done (replaceTodo milk_done [milk; bread; eggs]).
Proof.
  pose proof (patches_commute milk_done bread_done 0 0 [milk; bread; eggs])
    as [Hswap _].
  apply Hswap. simpl. lia.
Defined.

(** X5: for one id the last patch wins.  Of two Rename or Toggle responses
    with the same id only the later one shows (so applying a response twice
    is applying it once); a response for an id that was removed changes
    nothing; a removal after a response removes the patched item; a second
    removal of an id changes nothing. *)
Theorem last_patch_wins (d1 d2 : Todo) (i : Z) (l : list Todo) :
  (id d1 = id d2 ->
   replaceTodo d2 (replaceTodo d1 l) = replaceTodo d2 l) /\
  replaceTodo d1 (removeTodo (id d1) l) = removeTodo (id d1) l /\
  removeTodo (id d1) (replaceTodo d1 l) = removeTodo (id d1) l /\
  removeTodo i (removeTodo i l) = removeTodo i l.
Proof.
  assert (Hgone : replaceTodo d1 (removeTodo (id d1) l) = removeTodo (id d1) l).
  { apply replaceTodo_absent. intros u Hu.
    apply removeTodo_elem in Hu. apply Hu. }
  split; [|split; [exact Hgone | split; [|apply removeTodo_idem]]].
  - intros Heq. unfold replaceTodo. rewrite <- list_fmap_compose.
    apply list_fmap_ext. intros k u _. simpl. rewrite Heq.
    destruct (id u =? id d2) eqn:H; cbv iota; [|rewrite H; reflexivity].
    rewrite Heq, Z.eqb_refl. reflexivity.
  - rewrite removeTodo_replaceTodo. exact Hgone.
Qed.

Lemma last_patch_wins_witness :
  replaceTodo milk_done (replaceTodo milk [milk_done; bread])
    = replaceTodo milk_done [milk_done; bread].
Proof.
  pose proof (last_patch_wins milk milk_done 0 [milk_done; bread]) as [Hlast _].
  apply Hlast. reflexivity.
Defined.

(** X6: a handler that is rejected has changed nothing in the React state:
    Add, Rename, Delete, Toggle and SaveEdit patch the list and clear their
    drafts only after the response is there, so a failed call leaves the
    list, both drafts and the edit mode as they were.  A rejected Add,
    Rename, Delete or Toggle has sent its one request and found no response
    or a body that is not JSON. *)
Theorem rejected_changes_nothing (api : Backend) (w : World) (e : Fault) :
  (forall op, settled (perform api op) w = Rejected e ->
     ui (after (perform api op) w) = ui w /\
     exists r, sent (after (perform api op) w) = sent w ++ [r] /\
               (api r = None \/ api r = Some NotJson)) /\
  (settled (saveEdit api) w = Rejected e ->
     ui (after (saveEdit api) w) = ui w).
Proof.
  split.
  - intros op. run_perform api op w; intros Hrej; try discriminate Hrej;
      (split; [reflexivity|]).
    + exists (PostTodo (newTodo (ui w))). split; [reflexivity|]. right. exact Hapi.
    + exists (PostTodo (newTodo (ui w))). split; [reflexivity|]. left. exact Hapi.
    + exists (PutTodo i t). split; [reflexivity|]. right. exact Hapi.
    + exists (PutTodo i t). split; [reflexivity|]. left. exact Hapi.
    + exists (DeleteTodo i). split; [reflexivity|]. left. exact Hapi.
    + exists (PatchToggle i). split; [reflexivity|]. right. exact Hapi.
    + exists (PatchToggle i). split; [reflexivity|]. left. exact Hapi.
  - unfold settled, after.
    destruct (saveEdit_cases api w) as [H|[(j & e' & _ & H)|(j & d & _ & H)]];
      rewrite H; simpl; intros Hrej; try discriminate Hrej; reflexivity.
Qed.

Lemma rejected_changes_nothing_witness :
  ui (after (perform garbled Add) (drafting [milk] "Bake bread"))
    = ui (drafting [milk] "Bake bread") /\
  ui (after (saveEdit offline) (editing [milk] 1 "Buy oat milk"))
    = ui (editing [milk] 1 "Buy oat milk").
Proof.
  split.
  - pose proof (rejected_changes_nothing garbled
                  (drafting [milk] "Bake bread") JsonFailed) as [Hop _].
    apply (Hop Add). reflexivity.
  - pose proof (rejected_changes_nothing offline
                  (editing [milk] 1 "Buy oat milk") FetchFailed) as [_ Hsave].
    apply Hsave. reflexivity.
Defined.

(** X7: each handler writes only its own cells, whatever the backend
    answers.  Add, Rename, Delete and Toggle never touch the edit mode or the
    edit draft, and only Add touches the draft of a new item; Load touches
    nothing but the list; SaveEdit never touches the draft of a new item. *)
Theorem handlers_write_own_cells (api : Backend) (w : World) :
  (forall op,
     editingId (ui (after (perform api op) w)) = editingId (ui w) /\
     editTitle (ui (after (perform api op) w)) = editTitle (ui w) /\
     (op <> Add -> newTodo (ui (after (perform api op) w)) = newTodo (ui w))) /\
  (newTodo (ui (after (fetchTodos api) w)) = newTodo (ui w) /\
   editingId (ui (after (fetchTodos api) w)) = editingId (ui w) /\
   editTitle (ui (after (fetchTodos api) w)) = editTitle (ui w)) /\
  newTodo (ui (after (saveEdit api) w)) = newTodo (ui w).
Proof.
  split; [|split].
  - intros op. run_perform api op w; repeat split; congruence.
  - unfold after, fetchTodos, try_catch, bind, fetch.
    destruct (api GetTodos) as [[|v]|]; simpl; repeat split.
  - unfold after.
    destruct (saveEdit_cases api w) as [H|[(j & e' & _ & H)|(j & d & _ & H)]];
      rewrite H; reflexivity.
Qed.

Lemma handlers_write_own_cells_witness :
  newTodo (ui (after (perform (answering milk_done) (Toggle 1))
                     (drafting [milk] "Bake bread"))) = "Bake bread".
Proof.
  pose proof (handlers_write_own_cells (answering milk_done)
                (drafting [milk] "Bake bread")) as [Hop _].
  apply (Hop (Toggle 1)). discriminate.
Defined.

(** X8: nothing but a failed Load writes to the console.  Add, Rename,
    Delete, Toggle and SaveEdit fail without a log entry, and a Load whose
    body parses logs nothing either, also when the parsed value is no array
    and the list is reset to empty. *)
Theorem only_failed_load_logs (api : Backend) (w : World) :
  (forall op, console (after (perform api op) w) = console w) /\
  console (after (saveEdit api) w) = console w /\
  (forall v : JsonValue, api GetTodos = Some (Parsed v) ->
     console (after (fetchTodos api) w) = console w).
Proof.
  split; [|split].
  - intros op. run_perform api op w; reflexivity.
  - unfold after.
    destruct (saveEdit_cases api w) as [H|[(j & e' & _ & H)|(j & d & _ & H)]];
      rewrite H; reflexivity.
  - intros v Hv. unfold after, fetchTodos, try_catch, bind.
    rewrite (fetch_answered _ _ _ _ Hv). reflexivity.
Qed.

Lemma only_failed_load_logs_witness :
  console (after (fetchTodos objecting) (viewing [milk])) = [] /\
  todos (ui (after (fetchTodos objecting) (viewing [milk]))) = [].
Proof.
  split; [|reflexivity].
  pose proof (only_failed_load_logs objecting (viewing [milk])) as (_ & _ & Hload).
  apply (Hload JObject). reflexivity.
Defined.

(** X9: Load replaces the list wholesale: the list it leaves depends on the
    response only, not on the list it finds, so a second Load against the
    same backend leaves the same list as the first. *)
Theorem load_forgets_old_list (api : Backend) (w1 w2 : World) :
  todos (ui (after (fetchTodos api) w1)) = todos (ui (after (fetchTodos api) w2)) /\
  todos (ui (after (fetchTodos api) (after (fetchTodos api) w1)))
    = todos (ui (after (fetchTodos api) w1)).
Proof.
  unfold after, fetchTodos, try_catch, bind, fetch.
  destruct (api GetTodos) as [[|v]|]; simpl; split; reflexivity.
Qed.

(** ** What [saveEdit] sends *)

Lemma trimStart_split (s : string) :
  exists pre, s = String.append pre (trimStart s) /\ all_white pre = true.
Proof.
  induction s as [|c s (pre & Hs & Hpre)]; simpl.
  - exists "". split; reflexivity.
  - destruct (is_white c) eqn:Hc.
    + exists (String c pre). split.
      * exact (f_equal (String c) Hs).
      * simpl. rewrite Hc. exact Hpre.
    + exists "". split; reflexivity.
Qed.

Lemma trimEnd_split (s : string) :
  exists post, s = String.append (trimEnd s) post /\ all_white post = true.
Proof.
  induction s as [|c s (post & Hs & Hpost)]; simpl.
  - exists "". split; reflexivity.
  - destruct (trimEnd s) as [|c' r] eqn:Hr.
    + change (s = post) in Hs. subst post. destruct (is_white c) eqn:Hc.
      * exists (String c s). simpl. rewrite Hc, Hpost. split; reflexivity.
      * exists s. split; [reflexivity | exact Hpost].
    + exists post. split; [|exact Hpost].
      exact (f_equal (String c) Hs).
Qed.

Lemma starts_black_trimStart (s : string) :
  starts_black (trimStart s) = true.
Proof.
  induction s as [|c s IH]; simpl; [reflexivity|].
  destruct (is_white c) eqn:Hc; [exact IH|]. simpl. rewrite Hc. reflexivity.
Qed.

Lemma starts_black_trimEnd (s : string) :
  starts_black s = true -> starts_black (trimEnd s) = true.
Proof.
  destruct s as [|c s]; simpl; [reflexivity|]. intros Hc.
  destruct (trimEnd s); [|exact Hc].
  destruct (is_white c) eqn:E; [discriminate Hc|].
  simpl. rewrite E. reflexivity.
Qed.

Lemma ends_black_trimEnd (s : string) :
  ends_black (trimEnd s) = true.
Proof.
  induction s as [|c s IH]; simpl; [reflexivity|].
  destruct (trimEnd s) as [|c' r].
  - destruct (is_white c) eqn:Hc; simpl; [reflexivity|]. rewrite Hc. reflexivity.
  - exact IH.
Qed.

Lemma trimStart_fixed (s : string) :
  starts_black s = true -> trimStart s = s.
Proof.
  destruct s as [|c s]; simpl; [reflexivity|].
  destruct (is_white c); [discriminate | reflexivity].
Qed.

Lemma trimEnd_fixed (s : string) :
  ends_black s = true -> trimEnd s = s.
Proof.
  induction s as [|c s IH]; [reflexivity|].
  destruct s as [|c' r].
  - simpl. destruct (is_white c); [discriminate | reflexivity].
  - intros H. change (ends_black (String c' r) = true) in H.
    change (trimEnd (String c (String c' r)))
      with (match trimEnd (String c' r) with
            | EmptyString => if is_white c then EmptyString else String c EmptyString
            | r' => String c r'
            end).
    rewrite (IH H). reflexivity.
Qed.

(** [trim] cuts white space off both ends and nothing else. *)
Lemma trim_spec (s : string) :
  trimmed_from s (trim s) /\
  starts_black (trim s) = true /\ ends_black (trim s) = true /\
  trim (trim s) = trim s.
Proof.
  assert (Hs : starts_black (trim s) = true)
    by apply starts_black_trimEnd, starts_black_trimStart.
  assert (He : ends_black (trim s) = true) by apply ends_black_trimEnd.
  split; [|split; [exact Hs | split; [exact He|]]].
  - destruct (trimStart_split s) as (pre & Hpre & Hwpre).
    destruct (trimEnd_split (trimStart s)) as (post & Hpost & Hwpost).
    exists pre, post. unfold trim. rewrite <- Hpost.
    split; [exact Hpre | split; assumption].
  - unfold trim at 1. rewrite (trimStart_fixed _ Hs). apply trimEnd_fixed, He.
Qed.

(** X10: SaveEdit needs a target with a non-zero id.  Without a target, or
    with the target's id 0 (which the guard [editingId && ...] takes for
    unset), SaveEdit is a no-op whatever the edit draft: an item with id 0
    can be put in edit mode through BeginEdit and typed into, but saving it
    sends nothing and leaves the view in edit mode. *)
Theorem save_needs_nonzero_target (api : Backend) (w : World) :
  (editingId (ui w) = None \/ editingId (ui w) = Some 0 ->
   saveEdit api w = (Fulfilled tt, w)) /\
  (forall (todo : Todo) (value : string),
     id todo = 0 ->
     let w' := after (startEdit todo ;; setEditTitle value) w in
     editingId (ui w') = Some 0 /\ editTitle (ui w') = value /\
     saveEdit api w' = (Fulfilled tt, w')).
Proof.
  assert (Hnoop : forall w0, editingId (ui w0) = None \/ editingId (ui w0) = Some 0 ->
                             saveEdit api w0 = (Fulfilled tt, w0)).
  { intros w0 [H|H]; unfold saveEdit, bind, get; simpl; rewrite H; reflexivity. }
  split; [apply Hnoop|].
  intros todo value Hid w'. subst w'.
  assert (Hed : editingId (ui (after (startEdit todo ;; setEditTitle value) w))
                = Some 0).
  { unfold after. simpl. rewrite Hid. reflexivity. }
  split; [exact Hed|]. split; [reflexivity|].
  apply Hnoop. right. exact Hed.
Qed.

Lemma save_needs_nonzero_target_witness :
  saveEdit (answering milk) (editing [mkTodo 0 "Zero" false] 0 "Nought")
    = (Fulfilled tt, editing [mkTodo 0 "Zero" false] 0 "Nought").
Proof.
  pose proof (save_needs_nonzero_target (answering milk)
                (editing [mkTodo 0 "Zero" false] 0 "Nought")) as [Hnoop _].
  apply Hnoop. right. reflexivity.
Defined.

(** X11: the title SaveEdit sends is the edit draft without the white space
    around it: the one request is a Rename of the target with a title that is
    not empty, neither starts nor ends with white space, is left alone by
    another trim, and gives back the draft when white space is put before
    and after it. *)
Theorem save_sends_trimmed_title (api : Backend) (w : World) (i : Z) :
  editingId (ui w) = Some i -> i <> 0 ->
  all_white (editTitle (ui w)) = false ->
  exists t : string,
    sent (after (saveEdit api) w) = sent w ++ [PutTodo i t] /\
    t <> "" /\
    starts_black t = true /\ ends_black t = true /\
    trim t = t /\
    trimmed_from (editTitle (ui w)) t.
Proof.
  intros Hid Hi Hdraft. exists (trim (editTitle (ui w))).
  destruct (trim_spec (editTitle (ui w))) as (Hfrom & Hs & He & Hidem).
  split; [|split; [|repeat split; assumption]].
  - unfold after. rewrite (saveEdit_runs api w i Hid Hi Hdraft).
    unfold bind at 1. unfold updateTodo, bind, fetch.
    destruct (api (PutTodo i (trim (editTitle (ui w))))) as [[|d]|]; reflexivity.
  - apply truthy_string_nonempty. rewrite trim_truthy, Hdraft. reflexivity.
Qed.

Lemma save_sends_trimmed_title_witness :
  exists t : string,
    sent (after (saveEdit (answering milk)) (editing [milk] 1 "  Buy oat milk "))
      = [PutTodo 1 t] /\
    trimmed_from "  Buy oat milk " t.
Proof.
  assert (Hne : (1 : Z) <> 0) by lia.
  destruct (save_sends_trimmed_title (answering milk)
              (editing [milk] 1 "  Buy oat milk ") 1 eq_refl Hne eq_refl)
    as (t & Hsent & _ & _ & _ & _ & Hfrom).
  exists t. split; [exact Hsent | exact Hfrom].
Defined.

(** ** The view and what it offers *)

Lemma strict_eq_id_true (o : option Z) (n : Z) :
  strict_eq_id o n = true <-> o = Some n.
Proof.
  destruct o as [m|]; simpl.
  - rewrite Z.eqb_eq. split; congruence.
  - split; discriminate.
Qed.

Lemma strict_eq_id_false (o : option Z) (n : Z) :
  strict_eq_id o n = false <-> o <> Some n.
Proof.
  rewrite <- strict_eq_id_true. destruct (strict_eq_id o n); split; congruence.
Qed.

Lemma renderRow_form (s : State) (todo : Todo) :
  isEditForm (renderRow s todo) = true <-> editingId s = Some (id todo).
Proof.
  rewrite <- strict_eq_id_true. unfold renderRow.
  destruct (strict_eq_id (editingId s) (id todo)); simpl; split; congruence.
Qed.

Lemma renderRow_offers (s : State) (todo : Todo) (e : Event) :
  rowOffers (renderRow s todo) e = true <-> row_allows s todo e.
Proof.
  unfold renderRow.
  destruct (strict_eq_id (editingId s) (id todo)) eqn:Hed.
  - apply strict_eq_id_true in Hed.
    destruct e; simpl; split; try discriminate; try tauto; try congruence.
    + intros [<- H]. congruence.
    + intros [-> H]. congruence.
    + intros [<- H]. congruence.
  - apply strict_eq_id_false in Hed.
    destruct e; simpl; rewrite ?Z.eqb_eq, ?bool_decide_eq_true;
      split; try discriminate; try tauto; try congruence.
    + intros ->. split; [reflexivity | exact Hed].
    + intros [H _]. symmetry. exact H.
    + intros ->. split; [reflexivity | exact Hed].
    + intros ->. split; [reflexivity | exact Hed].
    + intros [H _]. symmetry. exact H.
Qed.

(** X12: the rows follow the list: one row per item, in the order of the
    list, keyed by the item's id.  The row of an item is the inline form,
    holding the edit draft, exactly when the item's id is [editingId];
    otherwise it shows the item's title, struck through exactly when the item
    is completed.  So an idle view has no form, and a list without duplicate
    ids has at most one. *)
Theorem rows_follow_list (s : State) :
  rowKey <$> rows (render s) = id <$> todos s /\
  (forall (k : nat) (todo : Todo), todos s !! k = Some todo ->
     (editingId s = Some (id todo) ->
      rows (render s) !! k = Some (EditForm (id todo) (editTitle s))) /\
     (editingId s <> Some (id todo) ->
      rows (render s) !! k =
        Some (ReadRow (id todo) (title todo) (completed todo)
                      (id todo) todo (id todo)))) /\
  (editingId s = None ->
   forall r, r ∈ rows (render s) -> isEditForm r = false) /\
  (unique_ids (todos s) ->
   forall (j k : nat) (rj rk : Row),
     rows (render s) !! j = Some rj -> rows (render s) !! k = Some rk ->
     isEditForm rj = true -> isEditForm rk = true -> j = k).
Proof.
  split; [|split; [|split]].
  - simpl. rewrite <- list_fmap_compose. apply list_fmap_ext.
    intros k todo _. simpl. unfold renderRow.
    destruct (strict_eq_id (editingId s) (id todo)); reflexivity.
  - intros k todo Hk. simpl. rewrite list_lookup_fmap, Hk. simpl.
    unfold renderRow. split; intros H.
    + apply strict_eq_id_true in H. rewrite H. reflexivity.
    + apply strict_eq_id_false in H. rewrite H. reflexivity.
  - intros Hidle r Hr. simpl in Hr.
    apply list_elem_of_fmap in Hr as (todo & -> & _).
    unfold renderRow. rewrite Hidle. reflexivity.
  - intros Hu j k rj rk Hj Hk Hfj Hfk. simpl in Hj, Hk.
    rewrite list_lookup_fmap in Hj, Hk.
    destruct (todos s !! j) as [tj|] eqn:Htj; [|discriminate Hj].
    destruct (todos s !! k) as [tk|] eqn:Htk; [|discriminate Hk].
    simpl in Hj, Hk. injection Hj as <-. injection Hk as <-.
    apply renderRow_form in Hfj, Hfk.
    apply (NoDup_lookup _ j k (id tj) Hu).
    + rewrite list_lookup_fmap, Htj. reflexivity.
    + rewrite list_lookup_fmap, Htk. simpl. congruence.
Qed.

Lemma rows_follow_list_witness :
  rows (render (ui (editing [milk; bread_done] 1 "Buy oat milk")))
    !! 0%nat = Some (EditForm 1 "Buy oat milk") /\
  rows (render (ui (editing [milk; bread_done] 1 "Buy oat milk"))) !! 1%nat
    = Some (ReadRow 2 "Bake bread" true 2 bread_done 2).
Proof.
  pose proof (rows_follow_list (ui (editing [milk; bread_done] 1 "Buy oat milk")))
    as (_ & Hrow & _ & _).
  split.
  - apply (Hrow 0%nat milk eq_refl). reflexivity.
  - apply (Hrow 1%nat bread_done eq_refl). discriminate.
Defined.

(** X13: what the view offers.  Toggle(i) and Delete(i) are offered exactly
    when an item of the list has id [i] and [i] is not under edit; Edit of an
    item exactly when it is in the list and not under edit; the edit input,
    "Save" and "Cancel" exactly when the id under edit is the id of an item
    of the list; the draft input and "Add" always.  So the item under edit
    cannot be toggled or deleted, and an edit mode whose target is not in the
    list can be neither saved nor cancelled. *)
Theorem view_offers (s : State) (e : Event) :
  offers (render s) e = true <-> allows s e.
Proof.
  assert (Hrows : existsb (fun r => rowOffers r e) (rows (render s)) = true <->
                  exists todo, todo ∈ todos s /\ row_allows s todo e).
  { rewrite List.existsb_exists. simpl. split.
    - intros (r & Hr & He). apply list_elem_of_In in Hr.
      apply list_elem_of_fmap in Hr as (todo & -> & Hin).
      exists todo. split; [exact Hin | apply renderRow_offers, He].
    - intros (todo & Hin & He). exists (renderRow s todo). split.
      + apply list_elem_of_In, list_elem_of_fmap. eauto.
      + apply renderRow_offers, He. }
  destruct e; simpl; try exact Hrows; tauto.
Qed.

Lemma view_offers_witness :
  allows (ui (editing [milk; bread] 1 "Buy oat milk")) (ClickDelete 2) /\
  ~ allows (ui (editing [milk; bread] 1 "Buy oat milk")) (ClickDelete 1) /\
  ~ allows (ui (editing [milk; bread] 3 "Boil eggs")) ClickCancel.
Proof.
  split; [|split].
  - apply (view_offers (ui (editing [milk; bread] 1 "Buy oat milk")) (ClickDelete 2)).
    reflexivity.
  - intros H.
    apply (view_offers (ui (editing [milk; bread] 1 "Buy oat milk")) (ClickDelete 1))
      in H. discriminate H.
  - intros H.
    apply (view_offers (ui (editing [milk; bread] 3 "Boil eggs")) ClickCancel) in H.
    discriminate H.
Defined.

(** ** Sessions *)

(** X14: a user event sends at most one request, never the list request,
    and writes nothing to the console, whatever the backend answers: after
    the mount the view never reloads, and no failure of a user action is
    logged. *)
Theorem events_send_at_most_one (api : Backend) (e : Event) (w : World) :
  exists extra : list Request,
    sent (after (dispatch api e) w) = sent w ++ extra /\
    (length extra <= 1)%nat /\
    (GetTodos ∉ extra) /\
    console (after (dispatch api e) w) = console w.
Proof.
  assert (Hone : forall r : Request, r <> GetTodos -> GetTodos ∉ [r]).
  { intros r Hr Hin. apply list_elem_of_singleton in Hin. congruence. }
  assert (Hnone : forall w0 : World,
            exists extra : list Request,
              sent w0 = sent w0 ++ extra /\ (length extra <= 1)%nat /\
              (GetTodos ∉ extra) /\ console w0 = console w0).
  { intros w0. exists []. rewrite app_nil_r. repeat split.
    - simpl. lia.
    - apply not_elem_of_nil. }
  destruct e as [v| |i|t|i|v| |].
  - apply (Hnone (after (setNewTodo v) w)).
  - unfold after. simpl. unfold addTodo, bind, get, fetch.
    destruct (truthy_string (newTodo (ui w))); simpl; [|apply (Hnone w)].
    destruct (api (PostTodo (newTodo (ui w)))) as [[|d]|]; simpl;
      exists [PostTodo (newTodo (ui w))]; repeat split;
      try (simpl; lia); apply Hone; discriminate.
  - unfold after. simpl. unfold toggleTodo, bind, fetch.
    destruct (api (PatchToggle i)) as [[|d]|]; simpl;
      exists [PatchToggle i]; repeat split;
      try (simpl; lia); apply Hone; discriminate.
  - apply (Hnone (after (startEdit t) w)).
  - unfold after. simpl. unfold deleteTodo, bind, fetch.
    destruct (api (DeleteTodo i)) as [b|]; simpl;
      exists [DeleteTodo i]; repeat split;
      try (simpl; lia); apply Hone; discriminate.
  - apply (Hnone (after (setEditTitle v) w)).
  - unfold after. simpl.
    destruct (saveEdit_cases api w) as [H|[(j & e' & _ & H)|(j & d & _ & H)]];
      rewrite H; simpl.
    + apply (Hnone w).
    + exists [PutTodo j (trim (editTitle (ui w)))]. repeat split;
        try (simpl; lia); apply Hone; discriminate.
    + exists [PutTodo j (trim (editTitle (ui w)))]. repeat split;
        try (simpl; lia); apply Hone; discriminate.
  - apply (Hnone (after cancelEdit w)).
Qed.






(** X17: the handlers themselves do not guard the item under edit.  When
    Delete(i) goes through while [i] is under edit, the list loses the item
    and [editingId] stays [i]: no row is a form, and the view offers neither
    the edit input nor "Save" nor "Cancel". *)
Theorem delete_under_edit_strands_edit_mode
    (api : Backend) (w : World) (i : Z) (b : Body unit) :
  editingId (ui w) = Some i ->
  api (DeleteTodo i) = Some b ->
  let w' := after (deleteTodo api i) w in
  editingId (ui w') = Some i /\
  ~ has_id i (todos (ui w')) /\
  (forall r, r ∈ rows (render (ui w')) -> isEditForm r = false) /\
  offers (render (ui w')) ClickSave = false /\
  offers (render (ui w')) ClickCancel = false.
Proof.
  intros Hed Hdel w'. subst w'.
  assert (Hw : ui (after (deleteTodo api i) w) =
               {| todos := removeTodo i (todos (ui w)); newTodo := newTodo (ui w);
                  editingId := Some i; editTitle := editTitle (ui w) |}).
  { unfold after. rewrite (deleteTodo_answered api i b w Hdel). simpl.
    rewrite Hed. reflexivity. }
  assert (Hgone : ~ has_id i (todos (ui (after (deleteTodo api i) w)))).
  { rewrite Hw. simpl. intros (t & Ht & Hid).
    apply removeTodo_elem in Ht. apply Ht, Hid. }
  assert (Hnone : forall e,
            (e = ClickSave \/ e = ClickCancel) ->
            offers (render (ui (after (deleteTodo api i) w))) e = false).
  { intros e He. apply not_true_is_false. rewrite view_offers.
    destruct He as [-> | ->]; intros (todo & Hin & Hsame); apply Hgone;
      exists todo; (split; [exact Hin|]); rewrite Hw in Hsame; simpl in Hsame;
      congruence. }
  split; [rewrite Hw; reflexivity|]. split; [exact Hgone|].
  split; [|split; apply Hnone; auto].
  intros r Hr. simpl in Hr. apply list_elem_of_fmap in Hr as (todo & -> & Hin).
  apply not_true_is_false. rewrite renderRow_form. intros Hsame.
  apply Hgone. exists todo. split; [exact Hin|].
  rewrite Hw in Hsame. simpl in Hsame. congruence.
Qed.

Lemma delete_under_edit_strands_edit_mode_witness :
  offers (render (ui (after (deleteTodo (answering milk) 1)
                            (editing [milk; bread] 1 "Buy oat milk"))))
         ClickCancel = false.
Proof.
  pose proof (delete_under_edit_strands_edit_mode (answering milk)
                (editing [milk; bread] 1 "Buy oat milk") 1 (Parsed tt)
                eq_refl eq_refl) as (_ & _ & _ & _ & Hcancel).
  exact Hcancel.
Defined.
